(** * Chess coach backend: report parser, signal tracker and session handlers

    A shallow embedding of [backend/app/analysis.py], [backend/app/agent.py],
    [backend/app/session.py] and the REST handlers of [backend/app/main.py].

    Python values are modelled as follows: [int] is [Z]; [str] is a list of
    Unicode code points; [Optional[T]] is [option T]; a raised exception is
    an explicit result.  The chess library (python-chess), the engine
    process and the reasoning agent are collaborators: they are records of
    operations, or explicit results passed to the handlers. *)

From Stdlib Require Import ZArith NArith List Bool String Ascii Lia.
From Stdlib Require Import DecimalString.
Import ListNotations.

Set Implicit Arguments.

(** ** Python text *)

Definition char := N.
Definition str := list char.

(** A literal of the source, as code points; the escape [\n] of a Python
    literal is decoded to the line feed (no other escape occurs in the
    literals embedded here). *)
Fixpoint decode (l : list ascii) : str :=
  match l with
  | [] => []
  | a :: t =>
      match t with
      | b :: t' =>
          if (Ascii.eqb a "\" && Ascii.eqb b "n")%bool
          then 10%N :: decode t'
          else N_of_ascii a :: decode t
      | [] => [N_of_ascii a]
      end
  end.

Definition lit (s : string) : str := decode (list_ascii_of_string s).

Fixpoint str_eqb (a b : str) : bool :=
  match a, b with
  | [], [] => true
  | x :: a', y :: b' => N.eqb x y && str_eqb a' b'
  | _, _ => false
  end.

(** [x in (a, b, ...)] and [x in {a, b, ...}] on strings. *)
Definition str_mem (x : str) (l : list str) : bool := existsb (str_eqb x) l.

(** [str.isspace] of one character: the ASCII table of CPython and the
    Unicode white-space characters beyond it. *)
Definition is_space (c : char) : bool :=
  (((9 <=? c) && (c <=? 13)) || ((28 <=? c) && (c <=? 32))
   || (c =? 133) || (c =? 160) || (c =? 5760)
   || ((8192 <=? c) && (c <=? 8202))
   || (c =? 8232) || (c =? 8233) || (c =? 8239) || (c =? 8287)
   || (c =? 12288))%N.

(** The line boundaries of [str.splitlines]. *)
Definition is_linebreak (c : char) : bool :=
  (((10 <=? c) && (c <=? 13)) || ((28 <=? c) && (c <=? 30))
   || (c =? 133) || (c =? 8232) || (c =? 8233))%N.

Fixpoint lstrip_by (p : char -> bool) (s : str) : str :=
  match s with
  | c :: t => if p c then lstrip_by p t else s
  | [] => []
  end.

Definition rstrip_by (p : char -> bool) (s : str) : str :=
  rev (lstrip_by p (rev s)).

Definition strip_by (p : char -> bool) (s : str) : str :=
  rstrip_by p (lstrip_by p s).

(** [s.strip()] *)
Definition strip (s : str) : str := strip_by is_space s.

(** [s.strip(chars)] *)
Definition strip_chars (chars : str) (s : str) : str :=
  strip_by (fun c => existsb (N.eqb c) chars) s.

(** [s.startswith(prefix)], with [s[len(prefix):]] when it holds. *)
Fixpoint drop_prefix (prefix s : str) : option str :=
  match prefix, s with
  | [], _ => Some s
  | p :: prefix', c :: s' => if N.eqb p c then drop_prefix prefix' s' else None
  | _ :: _, [] => None
  end.

(** [sep in s] and [s.split(sep, 1)]: [None] when [sep] does not occur,
    else the text before and after its first occurrence. *)
Fixpoint split_once (sep s : str) : option (str * str) :=
  match drop_prefix sep s with
  | Some rest => Some ([], rest)
  | None =>
      match s with
      | [] => None
      | c :: t =>
          match split_once sep t with
          | Some (a, b) => Some (c :: a, b)
          | None => None
          end
      end
  end.

(** [s.replace("\n", " ")] and the like, for one-character arguments. *)
Definition replace_char (old new : char) (s : str) : str :=
  map (fun c => if N.eqb c old then new else c) s.

(** [s.splitlines()]: ["\r\n"] is one boundary, and a final boundary opens
    no empty last line. [cur] is the current line, reversed. *)
Fixpoint splitlines_from (cur : str) (s : str) : list str :=
  match s with
  | [] => match cur with [] => [] | _ => [rev cur] end
  | c :: t =>
      if is_linebreak c then
        match t with
        | d :: t' =>
            if (N.eqb c 13 && N.eqb d 10)%bool
            then rev cur :: splitlines_from [] t'
            else rev cur :: splitlines_from [] t
        | [] => [rev cur]
        end
      else splitlines_from (c :: cur) t
  end.

Definition splitlines (s : str) : list str := splitlines_from [] s.

(** ** analysis.py *)

Module Label.
Definition Best : str := lit "Best".
Definition Good : str := lit "Good".
Definition Inaccuracy : str := lit "Inaccuracy".
Definition Mistake : str := lit "Mistake".
Definition Blunder : str := lit "Blunder".
End Label.

Record MoveQuality : Type := mkMoveQuality {
  label : str;
  swing_cp : option Z
}.

Definition classify_move_quality_from_swing
    (eval_before_cp eval_after_cp : option Z) : MoveQuality :=
  match eval_before_cp, eval_after_cp with
  | Some before, Some after =>
      let swing := (after - before)%Z in
      if (swing >=? -30)%Z then mkMoveQuality Label.Good (Some swing)
      else if ((-90 <=? swing) && (swing <=? -31))%Z
        then mkMoveQuality Label.Inaccuracy (Some swing)
      else if ((-200 <=? swing) && (swing <=? -91))%Z
        then mkMoveQuality Label.Mistake (Some swing)
      else mkMoveQuality Label.Blunder (Some swing)
  | _, _ => mkMoveQuality Label.Good None
  end.

Definition update_mental_signals_after_move
    (move_quality : option str) (think_time_ms : option Z)
    (last_move_was_blunder : bool) (current_blunder_streak : Z) : Z * bool :=
  let rapid :=
    match think_time_ms with
    | Some t => last_move_was_blunder && (t <=? 1500)%Z
    | None => false
    end in
  match move_quality with
  | None => (current_blunder_streak, rapid)
  | Some mq =>
      let q := strip mq in
      if str_mem q [Label.Blunder; Label.Mistake]
      then ((current_blunder_streak + 1)%Z, rapid)
      else if str_mem q [Label.Good; Label.Best; Label.Inaccuracy]
      then (0%Z, rapid)
      else (current_blunder_streak, rapid)
  end.

(** ** The fragment of Python's [re] used by agent.py

    A backtracking matcher in continuation-passing style.  Quantifiers
    range over one character class, which is all the patterns of the
    source need, so every loop is structural on the remaining text. *)

Inductive regex : Type :=
| Lit (s : str)                 (* literal text *)
| Class (p : char -> bool)      (* one character of a class *)
| Star (p : char -> bool)       (* class*, greedy *)
| StarLazy (p : char -> bool)   (* class*?, non-greedy *)
| Seq (a b : regex)
| Alt (a b : regex)             (* a|b *)
| Ahead (a : regex)             (* (?=a) *)
| AtEnd                         (* \Z *)
| AtStart                       (* ^, without re.M *)
| WordBoundary.                 (* \b *)

(** A pattern [head(group)tail] with its single capturing group. *)
Record pattern : Type := mkPattern {
  p_head : regex;
  p_group : regex;
  p_tail : regex
}.

Section Quantifiers.
Variable A : Type.
Variable p : char -> bool.
Variable k : str -> str -> option A.

(** [pre] is the text before the cursor, reversed; [rest] the text from
    the cursor on; [k] continues the match at the new cursor. *)
Fixpoint star_greedy (pre rest : str) : option A :=
  match rest with
  | c :: t =>
      if p c then
        match star_greedy (c :: pre) t with
        | Some r => Some r
        | None => k pre rest
        end
      else k pre rest
  | [] => k pre rest
  end.

Fixpoint star_lazy (pre rest : str) : option A :=
  match k pre rest with
  | Some r => Some r
  | None =>
      match rest with
      | c :: t => if p c then star_lazy (c :: pre) t else None
      | [] => None
      end
  end.
End Quantifiers.

Definition ascii_digit (c : char) : bool := ((48 <=? c) && (c <=? 57))%N.

Definition ascii_word (c : char) : bool :=
  (ascii_digit c || ((65 <=? c) && (c <=? 90)) || ((97 <=? c) && (c <=? 122))
   || (c =? 95))%N.

(** The dot under [re.S], the dot without it, and [[A-Z_]]. *)
Definition any_char (c : char) : bool := true.
Definition not_newline (c : char) : bool := negb (c =? 10)%N.
Definition upper_or_underscore (c : char) : bool :=
  (((65 <=? c) && (c <=? 90)) || (c =? 95))%N.

(** Truthiness of a string and of a list. *)
Definition nonempty (A : Type) (s : list A) : bool :=
  match s with [] => false | _ => true end.

Definition is_ascii (s : str) : bool := forallb (fun c => (c <? 128)%N) s.

Definition ascii_lower_char (c : char) : char :=
  if ((65 <=? c) && (c <=? 90))%N then (c + 32)%N else c.

(** The Unicode database of the interpreter beyond ASCII: decimal digits
    ([\d]), alphanumerics ([\w], [\b]) and [str.lower].  On ASCII text the
    definitions below do not consult it. *)
Class Unicode : Type := {
  uni_decimal : char -> bool;
  uni_alnum : char -> bool;
  uni_lower : str -> str
}.

(** A value that may or may not be a [str] (the [content] of a message
    returned by the agent). *)
Inductive pyobj : Type :=
| PyStr (s : str)
| PyOther (repr : str).

Inductive exn : Type :=
| TypeError
| IndexError
| KeyError
| RuntimeError (what : str).

(** A call either returns or raises. *)
Inductive outcome (A : Type) : Type :=
| Returned (a : A)
| Raised (e : exn).
Arguments Returned {A} a.
Arguments Raised {A} e.

(** ** models.py: the agent's structured report *)

Record CoachOutput : Type := mkCoachOutput {
  move_quality : str;
  bullets : list str;
  pv : option str
}.

Record MentalOutput : Type := mkMentalOutput {
  observed_signals : list str;
  inference : str;
  micro_reset_tip : str
}.

Record PositionOutput : Type := mkPositionOutput {
  eval : str;
  why : list str;
  threats : list str;
  plans : list (str * list str)      (* a dict, keys in insertion order *)
}.

Record AgentOutput : Type := mkAgentOutput {
  coach : CoachOutput;
  mental : MentalOutput;
  position : PositionOutput;
  raw_text : option pyobj
}.

(** ** agent.py: parsing the agent's text *)

Section Parser.
Context {U : Unicode}.

Definition is_decimal (c : char) : bool :=
  if (c <? 128)%N then ascii_digit c else uni_decimal c.

Definition is_word (c : char) : bool :=
  if (c <? 128)%N then ascii_word c else uni_alnum c.

(** [s.lower()] *)
Definition lower (s : str) : str :=
  if is_ascii s then map ascii_lower_char s else uni_lower s.

Definition head_is_word (s : str) : bool :=
  match s with c :: _ => is_word c | [] => false end.

(** [rmatch r pre rest k]: match [r] at the cursor and continue with [k]
    at the new cursor; [None] when every alternative fails. *)
Fixpoint rmatch (A : Type) (r : regex) (pre rest : str)
    (k : str -> str -> option A) {struct r} : option A :=
  match r with
  | Lit s =>
      match drop_prefix s rest with
      | Some rest' => k (rev s ++ pre) rest'
      | None => None
      end
  | Class p =>
      match rest with
      | c :: t => if p c then k (c :: pre) t else None
      | [] => None
      end
  | Star p => star_greedy p k pre rest
  | StarLazy p => star_lazy p k pre rest
  | Seq a b => rmatch a pre rest (fun pre' rest' => rmatch b pre' rest' k)
  | Alt a b =>
      match rmatch a pre rest k with
      | Some res => Some res
      | None => rmatch b pre rest k
      end
  | Ahead a =>
      match rmatch a pre rest (fun _ _ => Some tt) with
      | Some _ => k pre rest
      | None => None
      end
  | AtEnd => match rest with [] => k pre rest | _ => None end
  | AtStart => match pre with [] => k pre rest | _ => None end
  | WordBoundary =>
      if xorb (head_is_word pre) (head_is_word rest) then k pre rest
      else None
  end.

(** The pattern matched at the cursor: group 1 of the match. *)
Definition match_here (pat : pattern) (pre rest : str) : option str :=
  rmatch (p_head pat) pre rest (fun pre1 rest1 =>
    rmatch (p_group pat) pre1 rest1 (fun pre2 rest2 =>
      rmatch (p_tail pat) pre2 rest2 (fun _ _ =>
        Some (firstn (List.length rest1 - List.length rest2) rest1)))).

Fixpoint search_from (pat : pattern) (pre rest : str) : option str :=
  match match_here pat pre rest with
  | Some g => Some g
  | None =>
      match rest with
      | [] => None
      | c :: t => search_from pat (c :: pre) t
      end
  end.

(** [re.search(pat, s)], as [group(1)] of the leftmost match. *)
Definition re_search (pat : pattern) (s : str) : option str :=
  search_from pat [] s.

(** The leftmost match of a pattern without groups: the text before it
    and the text after it. *)
Fixpoint find_from (r : regex) (pre rest : str) : option (str * str) :=
  match rmatch r pre rest (fun _ rest' => Some rest') with
  | Some rest' => Some (rev pre, rest')
  | None =>
      match rest with
      | [] => None
      | c :: t => find_from r (c :: pre) t
      end
  end.

(** [re.split(r, s, maxsplit=1)[0]] *)
Definition re_split_head (r : regex) (s : str) : str :=
  match find_from r [] s with
  | Some (before, _) => before
  | None => s
  end.

(** [re.match(r, s)]: the text after the match *)
Definition re_match (r : regex) (s : str) : option str :=
  rmatch r [] s (fun _ rest' => Some rest').

(** [re.sub(r, repl, s)] with an empty [repl], for a pattern that starts
    with [^] and matches no empty text: it can match at index 0 only. *)
Definition re_sub_anchored (r : regex) (s : str) : str :=
  match re_match r s with
  | Some rest' => rest'
  | None => s
  end.

Definition plus (p : char -> bool) : regex := Seq (Class p) (Star p).
Definition nothing : regex := Lit [].

(** [_section]: the tag in brackets, [\s*], the group [.*?] under [re.S],
    then the look-ahead for a line that opens the next [[A-Z_]+] tag, or
    for [\Z]. *)
Definition section_re (tag : str) : pattern :=
  mkPattern
    (Seq (Lit (lit "[" ++ tag ++ lit "]")) (Star is_space))
    (StarLazy any_char)
    (Ahead (Alt (Seq (Lit (lit "\n["))
                     (Seq (plus upper_or_underscore) (Lit (lit "]"))))
                AtEnd)).

Definition _section (text tag : str) : str :=
  match re_search (section_re tag) text with
  | Some g => strip g
  | None => []
  end.

Definition _bullets (block : str) : list str :=
  let out :=
    flat_map (fun line =>
                let line := strip line in
                match drop_prefix (lit "- ") line with
                | Some rest => [strip rest]
                | None => []
                end)
             (splitlines block) in
  filter (@nonempty char) out.

(** [^\d+\)\s+] *)
Definition numbered_re : regex :=
  Seq AtStart (Seq (plus is_decimal) (Seq (Lit (lit ")")) (plus is_space))).

Definition _numbered (block : str) : list str :=
  let out :=
    flat_map (fun line =>
                let line := strip line in
                match re_match numbered_re line with
                | Some _ => [strip (re_sub_anchored numbered_re line)]
                | None => []
                end)
             (splitlines block) in
  filter (@nonempty char) out.

(** The sub-field patterns of the position and coaching blocks: the
    sub-label, [\s*], the group [.*?] under [re.S], then the look-ahead
    for [stop] or [\Z]. *)
Definition field_re (sublabel : str) (stop : regex) : pattern :=
  mkPattern (Seq (Lit sublabel) (Star is_space))
            (StarLazy any_char)
            (Ahead (Alt stop AtEnd)).

(** [\bInference] *)
Definition inference_split_re : regex :=
  Seq WordBoundary (Lit (lit "Inference")).

(** [m_inf]: the literal "Inference", [.*?], ":", [\s*], the group [.*?]
    under [re.S], then the look-ahead for "10s Micro-Reset Tip:" or [\Z]. *)
Definition inference_re : pattern :=
  mkPattern
    (Seq (Lit (lit "Inference"))
         (Seq (StarLazy any_char) (Seq (Lit (lit ":")) (Star is_space))))
    (StarLazy any_char)
    (Ahead (Alt (Lit (lit "10s Micro-Reset Tip:")) AtEnd)).

(** [m_tip]: the literal "10s Micro-Reset Tip:", [\s*], then the group
    [.*] under [re.S] (all that follows). *)
Definition tip_re : pattern :=
  mkPattern (Seq (Lit (lit "10s Micro-Reset Tip:")) (Star is_space))
            (Star any_char) nothing.

(** [m_pb]: as [field_re], the look-ahead being for a line feed or [\Z]. *)
Definition plans_black_re : pattern :=
  field_re (lit "Plans (Black):") (Lit (lit "\n")).

(** [m_label]: the literal "Label:", [\s*], then the group [.*] without
    [re.S] (up to the end of the line). *)
Definition label_re : pattern :=
  mkPattern (Seq (Lit (lit "Label:")) (Star is_space))
            (Star not_newline) nothing.

(** [m_pv]: the literal "Short PV", [.*?], ":", [\s*], then the group [.*]
    under [re.S]. *)
Definition short_pv_re : pattern :=
  mkPattern
    (Seq (Lit (lit "Short PV"))
         (Seq (StarLazy any_char) (Seq (Lit (lit ":")) (Star is_space))))
    (Star any_char) nothing.

Definition allowed : list str :=
  [Label.Best; Label.Good; Label.Inaccuracy; Label.Mistake; Label.Blunder].

(** [x.strip().strip("- ").strip()] *)
Definition clean (x : str) : str := strip (strip_chars (lit "- ") (strip x)).

(** [a or b] on strings *)
Definition or_else (a b : str) : str := if nonempty a then a else b.

Definition parse_agent_report (text : str) : AgentOutput :=
  let mental := _section text (lit "MENTAL_STATE_CHECK") in
  let pos := _section text (lit "POSITION_SNAPSHOT") in
  let quality := _section text (lit "MOVE_QUALITY") in
  let coaching := _section text (lit "COACHING") in
  (* --- Mental --- *)
  let obs :=
    if nonempty mental then
      match split_once (lit "Observed Signals:") mental with
      | Some (_, after) => _bullets (re_split_head inference_split_re after)
      | None => []
      end
    else [] in
  let inference :=
    if nonempty mental then
      match re_search inference_re mental with
      | Some g =>
          strip (strip_chars (lit "- ") (replace_char 10%N 32%N (strip g)))
      | None => []
      end
    else [] in
  let tip :=
    if nonempty mental then
      match re_search tip_re mental with
      | Some g => clean g
      | None => []
      end
    else [] in
  (* --- Position --- *)
  let eval_line :=
    if nonempty pos then
      match re_search (field_re (lit "Eval:") (Lit (lit "\nWhy:"))) pos with
      | Some g => clean g
      | None => []
      end
    else [] in
  let why :=
    if nonempty pos then
      match re_search (field_re (lit "Why:")
                                (Lit (lit "\nImmediate Threats:"))) pos with
      | Some g => _bullets g
      | None => []
      end
    else [] in
  let threats :=
    if nonempty pos then
      match re_search (field_re (lit "Immediate Threats:")
                                (Lit (lit "\nPlans (White):"))) pos with
      | Some g => _bullets g
      | None => []
      end
    else [] in
  let plans_white :=
    if nonempty pos then
      match re_search (field_re (lit "Plans (White):")
                                (Lit (lit "\nPlans (Black):"))) pos with
      | Some g => _bullets g
      | None => []
      end
    else [] in
  let plans_black :=
    if nonempty pos then
      match re_search plans_black_re pos with
      | Some g => _bullets g
      | None => []
      end
    else [] in
  (* --- Move Quality --- *)
  let label :=
    if nonempty quality then
      match re_search label_re quality with
      | Some g =>
          let label := clean g in
          if negb (str_mem label allowed) then Label.Good else label
      | None => Label.Good
      end
    else Label.Good in
  (* --- Coaching --- *)
  let bullets :=
    if nonempty coaching then
      match re_search (field_re (lit "Actionable:")
                                (Lit (lit "\nShort PV"))) coaching with
      | Some g =>
          let bullets := _numbered g in
          if negb (nonempty bullets) then _bullets g else bullets
      | None => []
      end
    else [] in
  let pv :=
    if nonempty coaching then
      match re_search short_pv_re coaching with
      | Some g => Some (clean g)
      | None => None
      end
    else None in
  mkAgentOutput
    (mkCoachOutput label (firstn 3 bullets) pv)
    (mkMentalOutput obs
       (or_else inference (lit "Uncertain; monitor focus and time usage."))
       (or_else tip (lit "Take one deep breath, relax shoulders, and pick one plan for the next move.")))
    (mkPositionOutput (or_else eval_line (lit "unknown")) why threats
       [(lit "white", plans_white); (lit "black", plans_black)])
    (Some (PyStr text)).

(** [parse_agent_report] on whatever object the caller holds: the first
    [re.search] raises [TypeError] on a value that is no [str]. *)
Definition parse_agent_report_obj (text : pyobj) : outcome AgentOutput :=
  match text with
  | PyStr s => Returned (parse_agent_report s)
  | PyOther _ => Raised TypeError
  end.

(** The token the parser extracts for the move-quality label: [None] when
    the section is missing or empty, or holds no "Label:" sub-label. *)
Definition extracted_label (text : str) : option str :=
  let quality := _section text (lit "MOVE_QUALITY") in
  if nonempty quality then option_map clean (re_search label_re quality)
  else None.

(** *** run_coach_agent *)

(** What [agent.invoke] produced: [result["messages"][-1].content] (or the
    exception that reading it raises) and [str(result)]. *)
Record agent_result : Type := mkAgentResult {
  last_message_content : outcome pyobj;
  result_str : str
}.

(** The agent call: building the model and the agent and invoking it
    either raises or returns a result. *)
Inductive agent_call : Type :=
| AgentRaises (e : exn)
| AgentReturns (result : agent_result).

Definition missing_key_report : str :=
  lit "[MENTAL_STATE_CHECK]\n"
  ++ lit "Observed Signals:\n"
  ++ lit "- OPENAI_API_KEY missing\n"
  ++ lit "Inference (non-medical, uncertain):\n"
  ++ lit "- Coaching disabled until key is set\n"
  ++ lit "10s Micro-Reset Tip:\n"
  ++ lit "- Set OPENAI_API_KEY and restart backend\n\n"
  ++ lit "[POSITION_SNAPSHOT]\n"
  ++ lit "Eval:\n- unknown\n"
  ++ lit "Why:\n- engine unavailable\n"
  ++ lit "Immediate Threats:\n- unknown\n"
  ++ lit "Plans (White):\n- develop pieces\n"
  ++ lit "Plans (Black):\n- develop pieces\n\n"
  ++ lit "[MOVE_QUALITY]\n"
  ++ lit "Label:\n- Good\n"
  ++ lit "Reason:\n- no engine eval available\n\n"
  ++ lit "[COACHING]\n"
  ++ lit "Actionable:\n"
  ++ lit "- 1) Set OPENAI_API_KEY\n"
  ++ lit "Short PV (4-8 ply max):\n"
  ++ lit "- \n\n"
  ++ lit "[BOT_MOVE]\n"
  ++ lit "Explain:\n- \n"
  ++ lit "Next-turn checklist:\n- \n".

Definition parse_failed_report : str :=
  lit "[MENTAL_STATE_CHECK]\nObserved Signals:\n- parse failed\n"
  ++ lit "Inference (non-medical, uncertain):\n- parse failed\n"
  ++ lit "10s Micro-Reset Tip:\n- take a breath\n\n"
  ++ lit "[POSITION_SNAPSHOT]\nEval:\n- unknown\nWhy:\n- unknown\nImmediate Threats:\n- unknown\n"
  ++ lit "Plans (White):\n- unknown\nPlans (Black):\n- unknown\n\n"
  ++ lit "[MOVE_QUALITY]\nLabel:\n- Good\nReason:\n- unknown\n\n"
  ++ lit "[COACHING]\nActionable:\n- 1) See raw output\nShort PV (4-8 ply max):\n- \n\n"
  ++ lit "[BOT_MOVE]\nExplain:\n- \nNext-turn checklist:\n- \n".

(** [OPENAI_API_KEY] is [os.getenv("OPENAI_API_KEY")]; [invoke] is what
    the calls [ChatOpenAI(...)], [create_agent(...)] and [agent.invoke(...)]
    do on the snapshot handed over by the caller (the snapshot reaches
    the agent through its tools only). *)
Definition run_coach_agent (OPENAI_API_KEY : option str) (invoke : agent_call)
    : outcome AgentOutput :=
  if negb (match OPENAI_API_KEY with Some key => nonempty key | None => false end)
  then Returned (parse_agent_report missing_key_report)
  else
    match invoke with
    | AgentRaises e => Raised e
    | AgentReturns result =>
        let text :=
          match last_message_content result with
          | Returned content => content
          | Raised _ => PyStr (result_str result)
          end in
        match parse_agent_report_obj text with
        | Returned out => Returned out
        | Raised _ =>
            let out := parse_agent_report parse_failed_report in
            Returned (mkAgentOutput (coach out) (mental out) (position out)
                                    (Some text))
        end
    end.

End Parser.

(** ** The chess collaborators

    python-chess is used through a handful of operations.  A [Board] is a
    position with its stack of earlier positions and moves, as
    [chess.Board] keeps it for [pop]. *)

Class ChessLib : Type := {
  Position : Type;
  Move : Type;
  (** the position of [chess.Board()] *)
  starting_position : Position;
  (** [board.parse_uci(uci)], [None] when it raises *)
  parse_uci : Position -> str -> option Move;
  (** [move in board.legal_moves] *)
  is_legal : Position -> Move -> bool;
  (** the position after [board.push(move)] *)
  play : Position -> Move -> Position;
  (** [move.uci()] *)
  uci : Move -> str;
  (** [board.is_game_over()], [board.result()], [board.fen()] and
      [board.turn == chess.WHITE]; the first two also read the stack
      (repetition) *)
  game_over_at : Position -> list (Position * Move) -> bool;
  result_at : Position -> list (Position * Move) -> str;
  fen_of : Position -> str;
  white_to_move : Position -> bool
}.

Section Session.
Context {U : Unicode} {L : ChessLib}.

Record Board : Type := mkBoard {
  current : Position;
  stack : list (Position * Move)     (* most recent first *)
}.

(** [chess.Board()] *)
Definition new_board : Board := mkBoard starting_position [].

(** [board.push(move)] *)
Definition push (board : Board) (move : Move) : Board :=
  mkBoard (play (current board) move)
          ((current board, move) :: stack board).

(** [board.pop()]: [None] when it raises [IndexError] *)
Definition pop (board : Board) : option Board :=
  match stack board with
  | (previous, _) :: older => Some (mkBoard previous older)
  | [] => None
  end.

Definition is_game_over (board : Board) : bool :=
  game_over_at (current board) (stack board).

(** [StockfishEngine]: the engine process, asked for a move. *)
Record StockfishEngine : Type := mkEngine {
  get_bot_move : Board -> str -> Move
}.

(** *** session.py *)

Definition _empty_captured : list (str * list str) :=
  [(lit "white", []); (lit "black", [])].

Record Session : Type := mkSession {
  board : Board;
  player_side : str;
  bot_difficulty : str;
  coach_verbosity : Z;
  move_list : list str;
  captured_pieces : list (str * list str);
  white_ms : Z;
  black_ms : Z;
  think_times_ms : list Z;
  blunder_streak : Z;
  undo_attempts : Z;
  rapid_after_blunder : bool;
  self_report : option str;
  last_agent_output : option AgentOutput
}.

(** [SESSION = Session()] *)
Definition initial_session : Session :=
  mkSession new_board (lit "white") (lit "medium") 2 [] _empty_captured
            (5 * 60 * 1000) (5 * 60 * 1000) [] 0 0 false None None.

Definition reset (self : Session) (side difficulty : str) (verbosity : Z)
    : Session :=
  mkSession new_board side difficulty verbosity [] _empty_captured
            (5 * 60 * 1000) (5 * 60 * 1000) [] 0 0 false None None.

(** Attribute assignments on the session. *)
Definition set_board (b : Board) (s : Session) : Session :=
  mkSession b (player_side s) (bot_difficulty s) (coach_verbosity s)
    (move_list s) (captured_pieces s) (white_ms s) (black_ms s)
    (think_times_ms s) (blunder_streak s) (undo_attempts s)
    (rapid_after_blunder s) (self_report s) (last_agent_output s).

Definition set_move_list (l : list str) (s : Session) : Session :=
  mkSession (board s) (player_side s) (bot_difficulty s) (coach_verbosity s)
    l (captured_pieces s) (white_ms s) (black_ms s)
    (think_times_ms s) (blunder_streak s) (undo_attempts s)
    (rapid_after_blunder s) (self_report s) (last_agent_output s).

Definition set_think_times_ms (l : list Z) (s : Session) : Session :=
  mkSession (board s) (player_side s) (bot_difficulty s) (coach_verbosity s)
    (move_list s) (captured_pieces s) (white_ms s) (black_ms s)
    l (blunder_streak s) (undo_attempts s)
    (rapid_after_blunder s) (self_report s) (last_agent_output s).

Definition set_signals (streak_rapid : Z * bool) (s : Session) : Session :=
  mkSession (board s) (player_side s) (bot_difficulty s) (coach_verbosity s)
    (move_list s) (captured_pieces s) (white_ms s) (black_ms s)
    (think_times_ms s) (fst streak_rapid) (undo_attempts s)
    (snd streak_rapid) (self_report s) (last_agent_output s).

Definition set_undo_attempts (n : Z) (s : Session) : Session :=
  mkSession (board s) (player_side s) (bot_difficulty s) (coach_verbosity s)
    (move_list s) (captured_pieces s) (white_ms s) (black_ms s)
    (think_times_ms s) (blunder_streak s) n
    (rapid_after_blunder s) (self_report s) (last_agent_output s).

Definition set_self_report (r : option str) (s : Session) : Session :=
  mkSession (board s) (player_side s) (bot_difficulty s) (coach_verbosity s)
    (move_list s) (captured_pieces s) (white_ms s) (black_ms s)
    (think_times_ms s) (blunder_streak s) (undo_attempts s)
    (rapid_after_blunder s) r (last_agent_output s).

Definition set_last_agent_output (o : option AgentOutput) (s : Session)
    : Session :=
  mkSession (board s) (player_side s) (bot_difficulty s) (coach_verbosity s)
    (move_list s) (captured_pieces s) (white_ms s) (black_ms s)
    (think_times_ms s) (blunder_streak s) (undo_attempts s)
    (rapid_after_blunder s) (self_report s) o.

End Session.

(** *** models.py: requests and responses *)

Module NewGameRequest.
Record t : Type := mk {
  side : str;
  bot_difficulty : str;
  coach_verbosity : Z
}.
End NewGameRequest.

Module MoveRequest.
Record t : Type := mk {
  uci_move : str;
  think_time_ms : option Z;
  self_report : option str
}.
End MoveRequest.

Module SignalState.
Record t : Type := mk {
  think_times_ms : list Z;
  blunder_streak : Z;
  undo_attempts : Z;
  rapid_after_blunder : bool;
  self_report : option str
}.
End SignalState.

Module GameState.
Record t : Type := mk {
  fen : str;
  side_to_move : str;
  move_list : list str;
  captured_pieces : list (str * list str);
  clocks : Z * Z;                    (* ClockState: white_ms, black_ms *)
  signals : SignalState.t;
  game_over : bool;
  result : option str
}.
End GameState.

Record StateResponse : Type := mkStateResponse {
  state : GameState.t;
  agent_output : option AgentOutput
}.

Record MoveResponse : Type := mkMoveResponse {
  move_state : GameState.t;
  move_agent_output : option AgentOutput;
  bot_move : option str
}.

(** What a handler does for its caller: a response, an [HTTPException],
    or an exception that escapes it. *)
Inductive reply (A : Type) : Type :=
| Ok (body : A)
| HTTPException (status_code : Z) (detail : str)
| Unhandled (e : exn).
Arguments Ok {A} body.
Arguments HTTPException {A} status_code detail.
Arguments Unhandled {A} e.

(** ** main.py: the REST handlers

    A handler takes the session and returns its reply with the session it
    leaves behind: an assignment made before a [raise] stays made. *)

Section Handlers.
Context {U : Unicode} {L : ChessLib}.

(** The process state around the session: [chess_engine.ENGINE], the
    environment variable read by [run_coach_agent], and what the agent
    does when invoked on a session snapshot. *)
Record Env : Type := mkEnv {
  ENGINE : option StockfishEngine;
  api_key : option str;
  agent_invoke : Session -> agent_call
}.

Definition to_state (self : Session) : GameState.t :=
  let signals :=
    SignalState.mk (think_times_ms self) (blunder_streak self)
                   (undo_attempts self) (rapid_after_blunder self)
                   (self_report self) in
  let side_to_move :=
    if white_to_move (current (board self)) then lit "white" else lit "black" in
  let game_over := is_game_over (board self) in
  let result :=
    if game_over
    then Some (result_at (current (board self)) (stack (board self)))
    else None in
  GameState.mk (fen_of (current (board self))) side_to_move (move_list self)
               (captured_pieces self) (white_ms self, black_ms self)
               signals game_over result.

Definition state_response (SESSION : Session) : StateResponse :=
  mkStateResponse (to_state SESSION) (last_agent_output SESSION).

Definition new_game (env : Env) (req : NewGameRequest.t) (SESSION : Session)
    : reply StateResponse * Session :=
  let side := lower (NewGameRequest.side req) in
  if negb (str_mem side [lit "white"; lit "black"]) then
    (HTTPException 400 (lit "side must be 'white' or 'black'"), SESSION)
  else
  let difficulty := lower (NewGameRequest.bot_difficulty req) in
  if negb (str_mem difficulty [lit "easy"; lit "medium"; lit "hard"]) then
    (HTTPException 400 (lit "bot_difficulty must be easy|medium|hard"), SESSION)
  else
  let verbosity := NewGameRequest.coach_verbosity req in
  if ((verbosity <? 1) || (verbosity >? 3))%Z then
    (HTTPException 400 (lit "coach_verbosity must be 1..3"), SESSION)
  else
  let SESSION := reset SESSION side difficulty verbosity in
  (* If player chose black, let bot play first (as white) *)
  if str_eqb side (lit "black") then
    match ENGINE env with
    | None => (HTTPException 500 (lit "Engine not initialized"), SESSION)
    | Some engine =>
        let bot_move :=
          get_bot_move engine (board SESSION) (bot_difficulty SESSION) in
        let SESSION := set_board (push (board SESSION) bot_move) SESSION in
        let SESSION :=
          set_move_list (move_list SESSION ++ [uci bot_move]) SESSION in
        (Ok (state_response SESSION), SESSION)
    end
  else (Ok (state_response SESSION), SESSION).

Definition get_state (SESSION : Session) : reply StateResponse * Session :=
  (Ok (state_response SESSION), SESSION).

Definition undo (SESSION : Session) : reply StateResponse * Session :=
  (* allow undo only if at least one move exists *)
  if Nat.eqb (List.length (move_list SESSION)) 0 then
    (Ok (state_response SESSION), SESSION)
  else
    (* Undo one half-move (last move) *)
    match pop (board SESSION) with
    | None => (Unhandled IndexError, SESSION)
    | Some popped =>
        let SESSION := set_board popped SESSION in
        let SESSION := set_move_list (removelast (move_list SESSION)) SESSION in
        let SESSION :=
          set_undo_attempts (undo_attempts SESSION + 1)%Z SESSION in
        (Ok (state_response SESSION), SESSION)
    end.

Definition make_move (env : Env) (req : MoveRequest.t) (SESSION : Session)
    : reply MoveResponse * Session :=
  (* Ensure engine exists *)
  match ENGINE env with
  | None => (HTTPException 500 (lit "Engine not initialized"), SESSION)
  | Some engine =>
  (* Apply self-report (optional) *)
  let SESSION :=
    match MoveRequest.self_report req with
    | Some r => set_self_report (Some r) SESSION
    | None => SESSION
    end in
  (* Validate and play user's move *)
  let uci_text := strip (MoveRequest.uci_move req) in
  match parse_uci (current (board SESSION)) uci_text with
  | None => (HTTPException 400 (lit "Invalid UCI move"), SESSION)
  | Some move =>
  if negb (is_legal (current (board SESSION)) move) then
    (HTTPException 400 (lit "Illegal move"), SESSION)
  else
  (* Update think time *)
  let SESSION :=
    match MoveRequest.think_time_ms req with
    | Some t => set_think_times_ms (think_times_ms SESSION ++ [t]) SESSION
    | None => SESSION
    end in
  let SESSION :=
    set_signals
      (update_mental_signals_after_move
         None
         (MoveRequest.think_time_ms req)
         (blunder_streak SESSION >? 0)%Z
         (blunder_streak SESSION))
      SESSION in
  (* Push user move *)
  let SESSION := set_board (push (board SESSION) move) SESSION in
  let SESSION := set_move_list (move_list SESSION ++ [uci_text]) SESSION in
  let '(bot_move_uci, SESSION) :=
    if negb (is_game_over (board SESSION)) then
      let bot_move :=
        get_bot_move engine (board SESSION) (bot_difficulty SESSION) in
      let SESSION := set_board (push (board SESSION) bot_move) SESSION in
      let bot_move_uci := uci bot_move in
      (Some bot_move_uci,
       set_move_list (move_list SESSION ++ [bot_move_uci]) SESSION)
    else (None, SESSION) in
  (* Run agent after full ply (user + bot if any) *)
  match run_coach_agent (api_key env) (agent_invoke env SESSION) with
  | Raised e => (Unhandled e, SESSION)
  | Returned agent_out =>
      (* Persist last agent output so refresh restores it *)
      let SESSION := set_last_agent_output (Some agent_out) SESSION in
      (Ok (mkMoveResponse (to_state SESSION) (Some agent_out) bot_move_uci),
       SESSION)
  end
  end
  end.

(** The requests a client can send, each with the process state it meets. *)
Inductive request : Type :=
| NewGame (env : Env) (req : NewGameRequest.t)
| SubmitMove (env : Env) (req : MoveRequest.t)
| UndoMove
| GetState.

(** The session a request leaves behind. *)
Definition serve (r : request) (SESSION : Session) : Session :=
  match r with
  | NewGame env req => snd (new_game env req SESSION)
  | SubmitMove env req => snd (make_move env req SESSION)
  | UndoMove => snd (undo SESSION)
  | GetState => snd (get_state SESSION)
  end.

(** The session after a sequence of requests on a fresh process. *)
Definition run (requests : list request) : Session :=
  fold_left (fun SESSION r => serve r SESSION) requests initial_session.

(** [board.push_uci(u)] for each stored move, from [chess.Board()]. *)
Definition push_uci (b : option Board) (u : str) : option Board :=
  match b with
  | Some b =>
      match parse_uci (current b) u with
      | Some move => Some (push b move)
      | None => None
      end
  | None => None
  end.

Definition replay (moves : list str) : option Board :=
  fold_left push_uci moves (Some new_board).

(** The move was accepted: the engine is there, the text parses and the
    move is legal on the current board. *)
Definition accepted (env : Env) (req : MoveRequest.t) (SESSION : Session)
    : bool :=
  match ENGINE env with
  | None => false
  | Some _ =>
      match parse_uci (current (board SESSION))
                      (strip (MoveRequest.uci_move req)) with
      | Some move => is_legal (current (board SESSION)) move
      | None => false
      end
  end.

(** The engine answers with a move whose UCI text parses back to it on
    the board it was asked about, on every board the handlers ask it
    about. *)
Definition engine_moves_reparse (engine : StockfishEngine) : Prop :=
  forall (b : Board) (difficulty : str),
    is_game_over b = false \/ b = new_board ->
    parse_uci (current b) (uci (get_bot_move engine b difficulty))
    = Some (get_bot_move engine b difficulty).

Definition env_of (r : request) : option Env :=
  match r with
  | NewGame env _ | SubmitMove env _ => Some env
  | UndoMove | GetState => None
  end.

Definition engines_reparse (requests : list request) : Prop :=
  forall r env engine,
    In r requests -> env_of r = Some env -> ENGINE env = Some engine ->
    engine_moves_reparse engine.

(** The body of [make_move] in two steps, for the proofs: what an accepted
    move does to the session up to the push of the human move, and the
    reply of the engine unless the game is over. *)
Definition after_human (req : MoveRequest.t) (move : Move) (s : Session)
    : Session :=
  let s :=
    match MoveRequest.self_report req with
    | Some r => set_self_report (Some r) s
    | None => s
    end in
  let s :=
    match MoveRequest.think_time_ms req with
    | Some t => set_think_times_ms (think_times_ms s ++ [t]) s
    | None => s
    end in
  let s :=
    set_signals
      (update_mental_signals_after_move None (MoveRequest.think_time_ms req)
         (blunder_streak s >? 0)%Z (blunder_streak s)) s in
  let s := set_board (push (board s) move) s in
  set_move_list (move_list s ++ [strip (MoveRequest.uci_move req)]) s.

Definition after_bot (engine : StockfishEngine) (s : Session) : Session :=
  if negb (is_game_over (board s)) then
    let bot := get_bot_move engine (board s) (bot_difficulty s) in
    set_move_list (move_list s ++ [uci bot]) (set_board (push (board s) bot) s)
  else s.

(** The three checks of [new_game] pass. *)
Definition valid_new_game (req : NewGameRequest.t) : bool :=
  str_mem (lower (NewGameRequest.side req)) [lit "white"; lit "black"]
  && str_mem (lower (NewGameRequest.bot_difficulty req))
             [lit "easy"; lit "medium"; lit "hard"]
  && negb ((NewGameRequest.coach_verbosity req <? 1)
           || (NewGameRequest.coach_verbosity req >? 3))%Z.

(** The session as [SESSION.reset] leaves it for this request. *)
Definition fresh (req : NewGameRequest.t) (s : Session) : Session :=
  reset s (lower (NewGameRequest.side req))
          (lower (NewGameRequest.bot_difficulty req))
          (NewGameRequest.coach_verbosity req).

(** The stored move list replays to the stored board. *)
Definition consistent (s : Session) : Prop :=
  replay (move_list s) = Some (board s).

End Handlers.

(** ** The claims of the specification, where they differ from the code *)

(** The streak rule as the specification words it: the label itself is
    compared with the five names. *)
Definition spec_streak (move_quality : option str) (streak : Z) : Z :=
  match move_quality with
  | None => streak
  | Some l =>
      if str_mem l [Label.Mistake; Label.Blunder] then (streak + 1)%Z
      else if str_mem l [Label.Good; Label.Best; Label.Inaccuracy] then 0%Z
      else streak
  end.

Section SpecReadings.
Context {U : Unicode} {L : ChessLib}.

(** The move-quality label of the report cached by the previous turn. *)
Definition cached_label (SESSION : Session) : option str :=
  option_map (fun out => move_quality (coach out)) (last_agent_output SESSION).

(** The signal update as the specification words it: the tracker is fed
    the previous turn's cached label. *)
Definition spec_signal_update (req : MoveRequest.t) (SESSION : Session)
    : Z * bool :=
  update_mental_signals_after_move
    (cached_label SESSION)
    (MoveRequest.think_time_ms req)
    (blunder_streak SESSION >? 0)%Z
    (blunder_streak SESSION).

(** The plies of the history played by the human side: white plays the
    plies of even index, black those of odd index. *)
Fixpoint plies_of (white_first : bool) (moves : list str) : nat :=
  match moves with
  | [] => 0
  | _ :: rest =>
      (if white_first then 1 else 0) + plies_of (negb white_first) rest
  end.

Definition human_moves (SESSION : Session) : nat :=
  plies_of (str_eqb (player_side SESSION) (lit "white")) (move_list SESSION).

End SpecReadings.

(** ** A small instance of the collaborators

    A scripted opening stands in for the rules of chess: the only legal
    move of ply [n] is the [n]-th move of the script, and the game is
    over when the script ends. *)

Definition ascii_only : Unicode :=
  Build_Unicode (fun _ => false) (fun _ => false) (fun s => s).

Definition script : list str :=
  [lit "e2e4"; lit "e7e5"; lit "g1f3"; lit "b8c6"].

Definition scripted_parse (ply : nat) (u : str) : option str :=
  match nth_error script ply with
  | Some expected => if str_eqb u expected then Some u else None
  | None => None
  end.

Definition scripted_rules : ChessLib :=
  Build_ChessLib
    (Position := nat) (Move := str)
    0%nat
    scripted_parse
    (fun ply m => match scripted_parse ply m with Some _ => true | None => false end)
    (fun ply _ => S ply)
    (fun m => m)
    (fun ply _ => Nat.leb (List.length script) ply)
    (fun _ _ => lit "1/2-1/2")
    (fun _ => lit "scripted")
    Nat.even.

Definition scripted_engine : @StockfishEngine scripted_rules :=
  @mkEngine scripted_rules
    (fun b _ => nth (@current scripted_rules b) script (lit "0000")).

(** An agent that answers with a bare move-quality section, and one
    whose call raises. *)
Definition blunder_text : str := lit "[MOVE_QUALITY]\nLabel:\n- Blunder\n".

Definition blunder_agent (_ : @Session scripted_rules) : agent_call :=
  AgentReturns (mkAgentResult (Returned (PyStr blunder_text)) blunder_text).

Definition failing_agent (_ : @Session scripted_rules) : agent_call :=
  AgentRaises (RuntimeError (lit "connection refused")).

Definition env_no_engine : @Env scripted_rules :=
  @mkEnv scripted_rules None None failing_agent.

Definition env_no_key : @Env scripted_rules :=
  @mkEnv scripted_rules (Some scripted_engine) None failing_agent.

Definition env_failing : @Env scripted_rules :=
  @mkEnv scripted_rules (Some scripted_engine) (Some (lit "sk-test"))
         failing_agent.

Definition env_blunder : @Env scripted_rules :=
  @mkEnv scripted_rules (Some scripted_engine) (Some (lit "sk-test"))
         blunder_agent.

(** Requests for the scripted game. *)
Definition white_game : NewGameRequest.t :=
  NewGameRequest.mk (lit "white") (lit "easy") 1.

Definition black_game : NewGameRequest.t :=
  NewGameRequest.mk (lit "Black") (lit "easy") 1.

Definition move_request (u : string) (t : option Z) (r : option str)
    : MoveRequest.t :=
  MoveRequest.mk (lit u) t r.

(** The session after a new game as white and the move e2e4, answered by
    e7e5, with the agent's report labelled Blunder. *)
Definition after_first_turn : @Session scripted_rules :=
  run (U := ascii_only)
    [NewGame env_blunder white_game;
     SubmitMove env_blunder (move_request "e2e4" (Some 900%Z) None)].

(** ** Further code: models.py, agent.py, config.py, chess_engine.py *)

Unset Implicit Arguments.

(** *** models.py: [Field(ge=1, le=3)] of [NewGameRequest.coach_verbosity] *)
Definition verbosity_in_range (req : NewGameRequest.t) : bool :=
  ((1 <=? NewGameRequest.coach_verbosity req)
   && (NewGameRequest.coach_verbosity req <=? 3))%Z.

(** *** agent.py: the classification tool *)
Definition classify_last_move (eval_before_cp eval_after_cp : option Z) : str :=
  label (classify_move_quality_from_swing eval_before_cp eval_after_cp).

(** *** config.py *)

(** The file system as [pathlib] shows it: [str(Path(s))] and
    [Path(s).exists()]. *)
Class FileSystem : Type := {
  path_str : str -> str;
  path_exists : str -> bool
}.

Inductive located : Type :=
| Binary (path : str)
| FileNotFoundError (message : str).

Definition common_paths : list str :=
  [ lit "/usr/bin/stockfish";
    lit "/usr/local/bin/stockfish";
    lit "/opt/homebrew/bin/stockfish";
    lit "/usr/local/Cellar/stockfish/bin/stockfish";
    lit "C:/Program Files/Stockfish/stockfish.exe";
    lit "C:/stockfish/stockfish.exe" ].

Section Config.
Context {F : FileSystem}.

(** The loop over [common_paths]. *)
Fixpoint first_existing (paths : list str) : option str :=
  match paths with
  | [] => None
  | p :: rest => if path_exists p then Some (path_str p) else first_existing rest
  end.

Definition find_stockfish_binary (STOCKFISH_PATH : option str) : located :=
  match STOCKFISH_PATH with
  | Some (c :: path) =>
      if path_exists (c :: path) then Binary (path_str (c :: path))
      else FileNotFoundError
             (lit "STOCKFISH_PATH set but not found: " ++ path_str (c :: path))
  | _ =>
      match first_existing common_paths with
      | Some p => Binary p
      | None =>
          FileNotFoundError
            (lit "Stockfish binary not found. "
             ++ lit "Install stockfish and/or set STOCKFISH_PATH env var.")
      end
  end.
End Config.

(** *** chess_engine.py *)

(** [str(n)] of an [int]. *)
Definition str_of_int (n : Z) : str := lit (NilZero.string_of_int (Z.to_int n)).

Definition depth_by_level : list (str * Z) :=
  [(lit "easy", 6%Z); (lit "medium", 10%Z); (lit "hard", 15%Z)].

(** [d.get(key)] on a dict kept as a list of pairs. *)
Fixpoint dict_get (A : Type) (d : list (str * A)) (key : str) : option A :=
  match d with
  | [] => None
  | (k, v) :: rest => if str_eqb k key then Some v else dict_get A rest key
  end.
Arguments dict_get {A} d key.

(** [self.depth_by_level.get(difficulty, 10)], the depth of [get_bot_move]. *)
Definition bot_depth (difficulty : str) : Z :=
  match dict_get depth_by_level difficulty with
  | Some depth => depth
  | None => 10%Z
  end.

(** A score from the side to move: centipawns or mate in [n]. *)
Inductive Score : Type :=
| Cp (v : Z)
| Mate (n : Z).

Record ParsedInfo : Type := mkParsedInfo {
  eval_str : str;
  eval_cp : option Z;
  parsed_pv : list str
}.

Section Analysis.
Context {L : ChessLib}.

(** One entry of [engine.analyse]: its score from the side to move
    ([entry["score"].pov(board.turn)], which python-chess always sets)
    and its ["pv"] key, which may be missing. *)
Record InfoEntry : Type := mkInfoEntry {
  score : Score;
  info_pv : option (list Move)
}.

Definition parse_info (entry : InfoEntry) : ParsedInfo :=
  let pv_moves :=
    match info_pv entry with
    | Some pv => map uci (firstn 8 pv)
    | None => []
    end in
  match score entry with
  | Mate n => mkParsedInfo (lit "mate " ++ str_of_int n) None pv_moves
  | Cp v => mkParsedInfo (str_of_int v ++ lit " cp") (Some v) pv_moves
  end.



End Analysis.

(** *** agent.py: shapes of the report text *)

(** A bullet as the report lists hold it: not empty, no white space at
    either end, no line boundary inside. *)
Definition well_formed_bullet (b : str) : Prop :=
  b <> [] /\ strip b = b /\ Forall (fun c => is_linebreak c = false) b.

(** A line feed followed by an opening bracket: where the look-ahead of
    [_section] can see the next header. *)
Fixpoint has_header_line (s : str) : bool :=
  match s with
  | [] => false
  | c :: t =>
      match t with
      | d :: _ => (N.eqb c 10 && N.eqb d 91) || has_header_line t
      | [] => false
      end
  end.

(** What may follow a section: the end of the text, or a line that
    opens the next header. *)
Definition section_end (rest : str) : Prop :=
  rest = []
  \/ exists next tail,
       rest = lit "\n[" ++ next ++ lit "]" ++ tail
       /\ next <> [] /\ forallb upper_or_underscore next = true.

Definition starts_with_text (s : str) : Prop :=
  match s with c :: _ => is_space c = false | [] => False end.

(** The look-ahead of [_section] at a cursor. *)
Definition next_header : regex :=
  Alt (Seq (Lit (lit "\n[")) (Seq (plus upper_or_underscore) (Lit (lit "]"))))
      AtEnd.

(** *** Further scripted inputs *)

(** A fragment of a report in the agent's format. *)
Definition fragment_prefix : str := lit "[POSITION_SNAPSHOT]\nEval:\n- +0.3\n\n".
Definition fragment_body : str :=
  lit "Label:\n- Mistake\nReason:\n- drops a pawn\n".
Definition fragment_rest : str := lit "\n[COACHING]\nActionable:\n- 1) castle\n".

(** An analysis entry of the scripted game with a mate score, and one
    with a centipawn score. *)
Definition mate_entry : @InfoEntry scripted_rules :=
  @mkInfoEntry scripted_rules (Mate 3) (Some [lit "e2e4"; lit "e7e5"]).

Definition cp_entry : @InfoEntry scripted_rules :=
  @mkInfoEntry scripted_rules (Cp 40) None.

(** A machine with the homebrew binary only. *)
Definition homebrew_only : FileSystem :=
  {| path_str := fun p => p;
     path_exists := fun p => str_eqb p (lit "/opt/homebrew/bin/stockfish") |}.


(** A report whose mental section was left empty. *)
Definition empty_mental_prefix : str := lit "Report\n".
Definition empty_mental_body : str := lit "\nEval:\n- equal\n".
Definition empty_mental_rest : str := lit "\n[MOVE_QUALITY]\nLabel:\n- Good\n".

Set Implicit Arguments.

(** * Properties *)

(** ** Text helpers *)

Lemma str_eqb_refl (a : str) : str_eqb a a = true.
Proof.
  induction a as [|x a IH]; simpl; [reflexivity|].
  now rewrite N.eqb_refl, IH.
Qed.

Lemma str_eqb_eq (a b : str) : str_eqb a b = true <-> a = b.
Proof.
  split.
  - revert b; induction a as [|x a IH]; intros [|y b]; simpl; try discriminate;
      [reflexivity|].
    intros H. apply andb_true_iff in H as [Hx Hab].
    apply N.eqb_eq in Hx. now rewrite Hx, (IH b Hab).
  - intros ->. apply str_eqb_refl.
Qed.

Lemma str_mem_In (x : str) (l : list str) : str_mem x l = true <-> In x l.
Proof.
  unfold str_mem. rewrite existsb_exists. split.
  - intros (y & Hy & E). apply str_eqb_eq in E. now subst.
  - intros H. exists x. split; [assumption | apply str_eqb_refl].
Qed.

Lemma str_mem_false (x : str) (l : list str) : str_mem x l = false <-> ~ In x l.
Proof.
  rewrite <- str_mem_In. destruct (str_mem x l); split; intros H; easy.
Qed.

(** ** analysis.py *)

(** C3: the move-quality classifier. With either evaluation absent it
    returns Good with no swing. Otherwise the swing is after minus before
    and the label is Good from -30 up, Inaccuracy from -90 to -31, Mistake
    from -200 to -91 and Blunder from -201 down; the label is never Best. *)
Theorem classify_move_quality_bands (eval_before_cp eval_after_cp : option Z) :
  let q := classify_move_quality_from_swing eval_before_cp eval_after_cp in
  match eval_before_cp, eval_after_cp with
  | Some before, Some after =>
      let swing := (after - before)%Z in
      swing_cp q = Some swing
      /\ ((-30 <= swing)%Z -> label q = Label.Good)
      /\ ((-90 <= swing <= -31)%Z -> label q = Label.Inaccuracy)
      /\ ((-200 <= swing <= -91)%Z -> label q = Label.Mistake)
      /\ ((swing <= -201)%Z -> label q = Label.Blunder)
  | _, _ => q = mkMoveQuality Label.Good None
  end
  /\ label q <> Label.Best.
Proof.
  destruct eval_before_cp as [before|], eval_after_cp as [after|]; cbn zeta;
    try (split; [reflexivity | discriminate]).
  unfold classify_move_quality_from_swing.
  set (swing := (after - before)%Z).
  destruct (swing >=? -30)%Z eqn:E1.
  { cbn. repeat split; try discriminate; intros; try reflexivity; lia. }
  destruct ((-90 <=? swing) && (swing <=? -31))%Z eqn:E2.
  { cbn. repeat split; try discriminate; intros; try reflexivity; lia. }
  destruct ((-200 <=? swing) && (swing <=? -91))%Z eqn:E3.
  { cbn. repeat split; try discriminate; intros; try reflexivity; lia. }
  cbn. repeat split; try discriminate; intros; try reflexivity; lia.
Qed.

(** C3, witness: a swing of -100 is a Mistake. *)
Lemma classify_move_quality_bands_witness :
  (-200 <= -50 - 50 <= -91)%Z
  /\ label (classify_move_quality_from_swing (Some 50%Z) (Some (-50)%Z))
     = Label.Mistake.
Proof.
  split; [lia|].
  apply (proj1 (proj2 (proj2 (proj2 (proj1
           (classify_move_quality_bands (Some 50%Z) (Some (-50)%Z))))))).
  lia.
Defined.

(** C4, as amended: the rules of the mental-signal tracker. The rapid
    flag is true exactly when the previous move was a blunder and a
    think-time is present and at most 1500 ms. The streak is kept when the
    label is absent, incremented when the label, stripped of surrounding
    white space, is Mistake or Blunder, reset to 0 when it is Good, Best
    or Inaccuracy, and kept for any other label. *)
Theorem update_mental_signals_rules
    (move_quality : option str) (think_time_ms : option Z)
    (last_move_was_blunder : bool) (current_blunder_streak : Z) :
  let r := update_mental_signals_after_move
             move_quality think_time_ms last_move_was_blunder
             current_blunder_streak in
  (snd r = true <->
     last_move_was_blunder = true
     /\ exists t, think_time_ms = Some t /\ (t <= 1500)%Z)
  /\ (move_quality = None -> fst r = current_blunder_streak)
  /\ (forall l, move_quality = Some l ->
        In (strip l) [Label.Mistake; Label.Blunder] ->
        fst r = (current_blunder_streak + 1)%Z)
  /\ (forall l, move_quality = Some l ->
        In (strip l) [Label.Good; Label.Best; Label.Inaccuracy] ->
        fst r = 0%Z)
  /\ (forall l, move_quality = Some l ->
        ~ In (strip l) [Label.Mistake; Label.Blunder; Label.Good; Label.Best;
                        Label.Inaccuracy] ->
        fst r = current_blunder_streak).
Proof.
  cbn zeta. split.
  - unfold update_mental_signals_after_move.
    assert (R : forall (s : Z) (b : bool), snd (s, b) = b) by reflexivity.
    destruct move_quality as [l|];
      [destruct (str_mem (strip l) [Label.Blunder; Label.Mistake]);
       [|destruct (str_mem (strip l) [Label.Good; Label.Best; Label.Inaccuracy])]|];
      rewrite R; clear R;
      (destruct think_time_ms as [t|];
       [ rewrite andb_true_iff, Z.leb_le; split;
         [ intros [H1 H2]; split; [assumption | exists t; split; [reflexivity | assumption]]
         | intros [H1 (t' & E & H2)]; injection E as ->; split; assumption ]
       | split; [discriminate | intros [_ (t' & E & _)]; discriminate] ]).
  - unfold update_mental_signals_after_move. repeat split.
    + intros ->. reflexivity.
    + intros l -> H.
      assert (M : str_mem (strip l) [Label.Blunder; Label.Mistake] = true).
      { apply str_mem_In. destruct H as [H|[H|[]]]; rewrite <- H; simpl; auto. }
      now rewrite M.
    + intros l -> H.
      assert (M1 : str_mem (strip l) [Label.Blunder; Label.Mistake] = false).
      { apply str_mem_false. intros [E|[E|[]]];
          destruct H as [H|[H|[H|[]]]]; rewrite <- H in E; discriminate E. }
      assert (M2 : str_mem (strip l) [Label.Good; Label.Best; Label.Inaccuracy] = true).
      { now apply str_mem_In. }
      now rewrite M1, M2.
    + intros l -> H.
      assert (M1 : str_mem (strip l) [Label.Blunder; Label.Mistake] = false).
      { apply str_mem_false. intros [E|[E|[]]]; apply H; rewrite <- E; simpl; auto. }
      assert (M2 : str_mem (strip l) [Label.Good; Label.Best; Label.Inaccuracy] = false).
      { apply str_mem_false. intros [E|[E|[E|[]]]]; apply H; rewrite <- E; simpl; auto 6. }
      now rewrite M1, M2.
Qed.

(** C4, witness: the label "Mistake" followed by a line feed. *)
Lemma update_mental_signals_rules_witness :
  In (strip (lit "Mistake\n")) [Label.Mistake; Label.Blunder]
  /\ fst (update_mental_signals_after_move
            (Some (lit "Mistake\n")) (Some 1500%Z) true 2%Z) = 3%Z.
Proof.
  split; [left; reflexivity|].
  apply (proj1 (proj2 (proj2
           (update_mental_signals_rules
              (Some (lit "Mistake\n")) (Some 1500%Z) true 2%Z)))
           (lit "Mistake\n") eq_refl).
  left; reflexivity.
Defined.

(** The boundary of the rapid flag: 1500 ms sets it, 1501 ms does not. *)
Lemma update_mental_signals_threshold (move_quality : option str) (streak : Z) :
  snd (update_mental_signals_after_move move_quality (Some 1500%Z) true streak) = true
  /\ snd (update_mental_signals_after_move move_quality (Some 1501%Z) true streak) = false.
Proof.
  unfold update_mental_signals_after_move.
  destruct move_quality as [l|];
    [destruct (str_mem (strip l) [Label.Blunder; Label.Mistake]);
     [|destruct (str_mem (strip l) [Label.Good; Label.Best; Label.Inaccuracy])]|];
    split; reflexivity.
Qed.

(** C4, counterexample: the label " Blunder" is none of the five names,
    so the claim keeps the streak, while the tracker strips it and
    increments the streak. *)
Lemma padded_label_breaks_streak_rule :
  ~ (forall (move_quality : option str) (think_time_ms : option Z)
            (last_move_was_blunder : bool) (streak : Z),
        fst (update_mental_signals_after_move
               move_quality think_time_ms last_move_was_blunder streak)
        = spec_streak move_quality streak).
Proof.
  intros H. specialize (H (Some (lit " Blunder")) None false 0%Z).
  vm_compute in H. discriminate H.
Qed.

(** ** agent.py *)

Lemma or_else_nonempty (a b : str) : b <> [] -> or_else a b <> [].
Proof.
  unfold or_else. destruct a; simpl; intros H; [assumption | discriminate].
Qed.

Lemma Good_allowed : In Label.Good allowed.
Proof. simpl. auto. Qed.

(** The label of a parsed report is one of the five names. *)
Lemma parsed_label_allowed {U : Unicode} (text : str) :
  In (move_quality (coach (parse_agent_report text))) allowed.
Proof.
  unfold parse_agent_report. cbn [coach move_quality].
  destruct (nonempty (_section text (lit "MOVE_QUALITY"))); [|apply Good_allowed].
  destruct (re_search label_re _) as [g|]; [|apply Good_allowed].
  destruct (str_mem (clean g) allowed) eqn:M; cbn [negb].
  - now apply str_mem_In.
  - apply Good_allowed.
Qed.

(** C1: on every text the report parser returns a report and raises
    nothing. The move-quality label of the report is one of Best, Good,
    Inaccuracy, Mistake and Blunder: it is the extracted token when that
    is one of the five, and Good when no token is found or the token is
    another string. The report is fully formed: at most three coaching
    bullets, the text kept as it came, and no empty inference, tip or
    evaluation. *)
Theorem parse_agent_report_total_label_closed {U : Unicode} (text : str) :
  exists out : AgentOutput,
    parse_agent_report_obj (PyStr text) = Returned out
    /\ In (move_quality (coach out)) allowed
    /\ move_quality (coach out) =
         match extracted_label text with
         | Some token => if str_mem token allowed then token else Label.Good
         | None => Label.Good
         end
    /\ (List.length (bullets (coach out)) <= 3)%nat
    /\ raw_text out = Some (PyStr text)
    /\ inference (mental out) <> []
    /\ micro_reset_tip (mental out) <> []
    /\ eval (position out) <> [].
Proof.
  eexists. split; [reflexivity|].
  split; [apply parsed_label_allowed|].
  unfold parse_agent_report.
  cbn [coach move_quality bullets raw_text mental position inference
       micro_reset_tip eval].
  unfold extracted_label.
  repeat split.
  - destruct (nonempty (_section text (lit "MOVE_QUALITY"))); [|reflexivity].
    destruct (re_search label_re _) as [g|]; [|reflexivity].
    cbn [option_map]. now destruct (str_mem (clean g) allowed).
  - rewrite length_firstn. lia.
  - apply or_else_nonempty. discriminate.
  - apply or_else_nonempty. discriminate.
  - apply or_else_nonempty. discriminate.
Qed.

(** C7, at the failing input: with a key in the environment, an exception
    raised by the agent call propagates out of [run_coach_agent]; no
    canned report is returned. *)
Theorem run_coach_agent_propagates_agent_exception
    {U : Unicode} (c : char) (key : str) (e : exn) :
  run_coach_agent (Some (c :: key)) (AgentRaises e) = Raised e.
Proof. reflexivity. Qed.

(** X2: without a key (unset or empty) the canned report is returned,
    whatever the agent would do: its label is Good and its inference and
    tip are the sentences of the canned text. *)
Lemma run_coach_agent_without_key {U : Unicode} (invoke : agent_call) :
  let out := parse_agent_report missing_key_report in
  run_coach_agent None invoke = Returned out
  /\ run_coach_agent (Some []) invoke = Returned out
  /\ move_quality (coach out) = Label.Good
  /\ bullets (coach out) = [lit "1) Set OPENAI_API_KEY"]
  /\ observed_signals (mental out) = [lit "OPENAI_API_KEY missing"]
  /\ inference (mental out) = lit "Coaching disabled until key is set"
  /\ micro_reset_tip (mental out)
     = lit "Set OPENAI_API_KEY and restart backend"
  /\ eval (position out) = lit "unknown"
  /\ raw_text out = Some (PyStr missing_key_report).
Proof.
  cbn zeta. split; [reflexivity|]. split; [reflexivity|].
  repeat split; vm_compute; reflexivity.
Qed.

(** X3: once the agent call returns, a report is returned whatever the
    result holds, and its label is one of the five names: a content that
    cannot be read is replaced by the text of the result, and a content
    that is no string takes the fallback text and is kept as raw text. *)
Lemma run_coach_agent_returns_when_agent_returns
    {U : Unicode} (key : option str) (result : agent_result) :
  exists out,
    run_coach_agent key (AgentReturns result) = Returned out
    /\ In (move_quality (coach out)) allowed
    /\ (forall c rest repr,
          key = Some (c :: rest) ->
          last_message_content result = Returned (PyOther repr) ->
          raw_text out = Some (PyOther repr)
          /\ inference (mental out) = lit "parse failed")
    /\ (forall c rest e,
          key = Some (c :: rest) ->
          last_message_content result = Raised e ->
          out = parse_agent_report (result_str result)).
Proof.
  unfold run_coach_agent.
  destruct key as [[|c rest]|]; cbn [nonempty negb].
  - eexists. split; [reflexivity|]. split; [apply parsed_label_allowed|].
    split; intros; discriminate.
  - destruct (last_message_content result) as [[s|repr]|e];
      cbn [parse_agent_report_obj]; eexists; (split; [reflexivity|]).
    + split; [apply parsed_label_allowed|]. split; intros; discriminate.
    + split; [cbn [coach]; apply parsed_label_allowed|].
      split; [|intros; discriminate].
      intros c' rest' repr' _ E. injection E as <-.
      split; [reflexivity | vm_compute; reflexivity].
    + split; [apply parsed_label_allowed|].
      split; [intros; discriminate|]. intros; reflexivity.
  - eexists. split; [reflexivity|]. split; [apply parsed_label_allowed|].
    split; intros; discriminate.
Qed.

(** The parser on small texts: a clean label, a label outside the five
    names, a truncated section, and four numbered bullets. *)
Example parse_label_blunder {U : Unicode} :
  move_quality (coach (parse_agent_report (lit "[MOVE_QUALITY]\nLabel:\n- Blunder\nReason:\n- hangs the queen\n")))
  = Label.Blunder.
Proof. vm_compute. reflexivity. Qed.

Example parse_label_unknown {U : Unicode} :
  extracted_label (lit "[MOVE_QUALITY]\nLabel: Brilliant\n") = Some (lit "Brilliant")
  /\ move_quality (coach (parse_agent_report (lit "[MOVE_QUALITY]\nLabel: Brilliant\n")))
     = Label.Good.
Proof. split; vm_compute; reflexivity. Qed.

Example parse_label_truncated {U : Unicode} :
  extracted_label (lit "[MOVE_QUALITY]\nLab") = None
  /\ move_quality (coach (parse_agent_report (lit "[MOVE_QUALITY]\nLab")))
     = Label.Good.
Proof. split; vm_compute; reflexivity. Qed.

Example parse_bullets_capped {U : Unicode} :
  bullets (coach (parse_agent_report
    (lit "[COACHING]\nActionable:\n1) castle\n2) develop\n3) trade\n4) push\nShort PV: e4 e5")))
  = [lit "castle"; lit "develop"; lit "trade"].
Proof. vm_compute. reflexivity. Qed.

(** ** session.py and main.py *)

Unset Implicit Arguments.

Section SessionFacts.
Context {U : Unicode} {L : ChessLib}.

Lemma run_snoc (requests : list request) (r : request) :
  run (requests ++ [r]) = serve r (run requests).
Proof. unfold run. now rewrite fold_left_app. Qed.

Lemma run_invariant (P : Session -> Prop) :
  P initial_session ->
  (forall r s, P s -> P (serve r s)) ->
  forall requests, P (run requests).
Proof.
  intros H0 Hstep requests.
  induction requests as [|r requests IH] using rev_ind; [exact H0|].
  rewrite run_snoc. now apply Hstep.
Qed.

Lemma replay_snoc (moves : list str) (u : str) :
  replay (moves ++ [u]) = push_uci (replay moves) u.
Proof. unfold replay. now rewrite fold_left_app. Qed.

Lemma pop_push (b : Board) (m : Move) : pop (push b m) = Some b.
Proof. now destruct b. Qed.

Lemma make_move_accepted (env : Env) (req : MoveRequest.t) (s : Session) :
  accepted env req s = true ->
  exists engine move,
    ENGINE env = Some engine
    /\ parse_uci (current (board s)) (strip (MoveRequest.uci_move req)) = Some move
    /\ is_legal (current (board s)) move = true
    /\ let s2 := after_bot engine (after_human req move s) in
       (snd (make_move env req s) = s2
        \/ exists out, snd (make_move env req s) = set_last_agent_output (Some out) s2).
Proof.
  unfold accepted, make_move.
  destruct (ENGINE env) as [engine|]; [|discriminate].
  destruct (parse_uci (current (board s)) _) as [move|] eqn:P; [|discriminate].
  intros Hl. exists engine, move. repeat split; try assumption.
  cbn zeta.
  assert (E : current (board match MoveRequest.self_report req with
                                 | Some r => set_self_report (Some r) s
                                 | None => s end) = current (board s))
    by now destruct (MoveRequest.self_report req).
  rewrite E, P, Hl. cbn [negb].
  unfold after_bot, after_human. cbn zeta.
  destruct (negb (is_game_over _)).
  - destruct (run_coach_agent _ _); cbn [snd]; [right; eexists; reflexivity | left; reflexivity].
  - destruct (run_coach_agent _ _); cbn [snd]; [right; eexists; reflexivity | left; reflexivity].
Qed.

Lemma make_move_rejected (env : Env) (req : MoveRequest.t) (s : Session) :
  accepted env req s = false ->
  match ENGINE env with
  | None => make_move env req s = (HTTPException 500 (lit "Engine not initialized"), s)
  | Some _ =>
      exists detail,
        make_move env req s =
        (HTTPException 400 detail,
         match MoveRequest.self_report req with
         | Some r => set_self_report (Some r) s
         | None => s
         end)
  end.
Proof.
  unfold accepted, make_move.
  destruct (ENGINE env) as [engine|]; [|reflexivity].
  cbn zeta.
  assert (E : current (board match MoveRequest.self_report req with
                                 | Some r => set_self_report (Some r) s
                                 | None => s end) = current (board s))
    by now destruct (MoveRequest.self_report req).
  rewrite E.
  destruct (parse_uci (current (board s)) _) as [move|] eqn:P.
  - intros ->. cbn [negb]. eexists. reflexivity.
  - intros _. eexists. reflexivity.
Qed.


Lemma new_game_cases (env : Env) (req : NewGameRequest.t) (s : Session) :
  (valid_new_game req = false /\ snd (new_game env req s) = s
   /\ exists detail, fst (new_game env req s) = HTTPException 400 detail)
  \/ (valid_new_game req = true
      /\ str_eqb (lower (NewGameRequest.side req)) (lit "black") = false
      /\ new_game env req s = (Ok (state_response (fresh req s)), fresh req s))
  \/ (valid_new_game req = true
      /\ str_eqb (lower (NewGameRequest.side req)) (lit "black") = true
      /\ ENGINE env = None
      /\ new_game env req s
         = (HTTPException 500 (lit "Engine not initialized"), fresh req s))
  \/ (valid_new_game req = true
      /\ str_eqb (lower (NewGameRequest.side req)) (lit "black") = true
      /\ exists engine,
           ENGINE env = Some engine
           /\ let bot := get_bot_move engine new_board
                                      (lower (NewGameRequest.bot_difficulty req)) in
              snd (new_game env req s)
              = set_move_list [uci bot]
                  (set_board (push new_board bot) (fresh req s))).
Proof.
  unfold valid_new_game, new_game, fresh.
  destruct (str_mem (lower (NewGameRequest.side req)) _); cbn [negb andb];
    [|left; repeat split; eexists; reflexivity].
  destruct (str_mem (lower (NewGameRequest.bot_difficulty req)) _); cbn [negb andb];
    [|left; repeat split; eexists; reflexivity].
  destruct (_ || _)%bool; cbn [negb];
    [left; repeat split; eexists; reflexivity|].
  right. cbn zeta.
  destruct (str_eqb (lower (NewGameRequest.side req)) (lit "black")).
  - right. destruct (ENGINE env) as [engine|].
    + right. repeat split. exists engine. split; reflexivity.
    + left. repeat split.
  - left. repeat split.
Qed.

Lemma undo_cases (s : Session) :
  undo s = (Ok (state_response s), s)
  \/ undo s = (Unhandled IndexError, s)
  \/ exists popped,
       move_list s <> [] /\ pop (board s) = Some popped
       /\ snd (undo s)
          = set_undo_attempts (undo_attempts s + 1)%Z
              (set_move_list (removelast (move_list s)) (set_board popped s)).
Proof.
  unfold undo.
  destruct (Nat.eqb (List.length (move_list s)) 0) eqn:N; [left; reflexivity|].
  destruct (pop (board s)) as [popped|]; [|right; left; reflexivity].
  right; right. exists popped. split; [|split; reflexivity].
  intros E. rewrite E in N. discriminate N.
Qed.

End SessionFacts.

Section SessionClaims.
Context {U : Unicode} {L : ChessLib}.

Lemma after_human_board (req : MoveRequest.t) (move : Move) (s : Session) :
  board (after_human req move s) = push (board s) move.
Proof.
  unfold after_human.
  now destruct (MoveRequest.self_report req), (MoveRequest.think_time_ms req).
Qed.

Lemma after_human_move_list (req : MoveRequest.t) (move : Move) (s : Session) :
  move_list (after_human req move s)
  = move_list s ++ [strip (MoveRequest.uci_move req)].
Proof.
  unfold after_human.
  now destruct (MoveRequest.self_report req), (MoveRequest.think_time_ms req).
Qed.

Lemma after_human_think_times (req : MoveRequest.t) (move : Move) (s : Session) :
  think_times_ms (after_human req move s)
  = think_times_ms s
    ++ match MoveRequest.think_time_ms req with Some t => [t] | None => [] end.
Proof.
  unfold after_human.
  destruct (MoveRequest.self_report req), (MoveRequest.think_time_ms req);
    cbn; now rewrite ?app_nil_r.
Qed.

Lemma after_human_signals (req : MoveRequest.t) (move : Move) (s : Session) :
  (blunder_streak (after_human req move s),
   rapid_after_blunder (after_human req move s))
  = update_mental_signals_after_move None (MoveRequest.think_time_ms req)
      (blunder_streak s >? 0)%Z (blunder_streak s).
Proof.
  unfold after_human.
  now destruct (MoveRequest.self_report req), (MoveRequest.think_time_ms req).
Qed.

Lemma after_bot_keeps (engine : StockfishEngine) (s : Session) :
  think_times_ms (after_bot engine s) = think_times_ms s
  /\ blunder_streak (after_bot engine s) = blunder_streak s
  /\ rapid_after_blunder (after_bot engine s) = rapid_after_blunder s.
Proof. unfold after_bot. now destruct (negb _). Qed.

Lemma after_bot_consistent (engine : StockfishEngine) (s : Session) :
  engine_moves_reparse engine -> consistent s -> consistent (after_bot engine s).
Proof.
  unfold consistent, after_bot. intros He Hs.
  destruct (is_game_over (board s)) eqn:G; cbn [negb]; [assumption|].
  cbn [move_list board set_move_list set_board].
  rewrite replay_snoc, Hs. cbn [push_uci].
  now rewrite (He (board s) (bot_difficulty s) (or_introl G)).
Qed.

Lemma serve_consistent (r : request) (s : Session) :
  (forall env engine,
      env_of r = Some env -> ENGINE env = Some engine ->
      engine_moves_reparse engine) ->
  consistent s -> consistent (serve r s).
Proof.
  intros He Hs. destruct r as [env req|env req| |]; cbn [serve].
  - destruct (new_game_cases env req s)
      as [(_ & E & _)|[(_ & _ & E)|[(_ & _ & _ & E)|(_ & _ & engine & En & E)]]];
      rewrite E; try assumption; try reflexivity.
    unfold consistent. cbn [move_list board set_move_list set_board].
    change (replay [uci ?m]) with (push_uci (Some new_board) (uci m)).
    cbn [push_uci].
    now rewrite (He env engine eq_refl En new_board _ (or_intror eq_refl)).
  - destruct (accepted env req s) eqn:A.
    + destruct (make_move_accepted env req s A)
        as (engine & move & En & P & _ & H).
      assert (C : consistent (after_bot engine (after_human req move s))).
      { apply after_bot_consistent; [now apply (He env)|].
        unfold consistent.
        rewrite after_human_move_list, after_human_board, replay_snoc, Hs.
        cbn [push_uci]. now rewrite P. }
      destruct H as [E|(out & E)]; rewrite E; exact C.
    + pose proof (make_move_rejected env req s A) as R.
      destruct (ENGINE env); [destruct R as (detail & R)|]; rewrite R;
        cbn [snd]; [destruct (MoveRequest.self_report req)|]; exact Hs.
  - destruct (undo_cases s) as [E|[E|(popped & Hne & Hp & E)]]; rewrite E;
      try exact Hs.
    unfold consistent in *.
    cbn [move_list board set_move_list set_board set_undo_attempts].
    destruct (exists_last Hne) as (moves & u & Em).
    rewrite Em in *. rewrite removelast_last.
    rewrite replay_snoc in Hs.
    destruct (replay moves) as [b|]; [|discriminate Hs].
    cbn [push_uci] in Hs.
    destruct (parse_uci (current b) u) as [m|]; [|discriminate Hs].
    injection Hs as Hs. rewrite <- Hs, pop_push in Hp. now rewrite Hp.
  - exact Hs.
Qed.

(** C6: after any sequence of requests whose engines answer with moves
    that parse back on the board they were asked about, replaying the
    stored move list from the starting position yields exactly the
    stored board: its position and its stack. *)
Theorem replay_reproduces_board (requests : list request) :
  engines_reparse requests ->
  replay (move_list (run requests)) = Some (board (run requests)).
Proof.
  induction requests as [|r requests IH] using rev_ind; intros He.
  - reflexivity.
  - rewrite run_snoc. apply serve_consistent.
    + intros env engine Er En.
      apply (He r env engine); [apply in_or_app; right; left; reflexivity | |];
        assumption.
    + apply IH. intros r' env engine Hin. apply He, in_or_app. now left.
Qed.

(** C10: after any sequence of new-game, move, undo and state requests on
    a fresh process the blunder streak is 0 and the rapid-after-blunder
    flag is false. *)
Theorem signals_stay_at_rest (requests : list request) :
  blunder_streak (run requests) = 0%Z
  /\ rapid_after_blunder (run requests) = false.
Proof.
  apply (run_invariant
           (fun s => blunder_streak s = 0%Z /\ rapid_after_blunder s = false)).
  - split; reflexivity.
  - intros [env req|env req| |] s [Hs Hr]; cbn [serve].
    + destruct (new_game_cases env req s)
        as [(_ & E & _)|[(_ & _ & E)|[(_ & _ & _ & E)|(_ & _ & engine & _ & E)]]];
        rewrite E; split; (assumption || reflexivity).
    + destruct (accepted env req s) eqn:A.
      * destruct (make_move_accepted env req s A)
          as (engine & move & _ & _ & _ & [E|(out & E)]); rewrite E;
          unfold after_bot, after_human; cbn zeta;
          destruct (negb (is_game_over _));
          destruct (MoveRequest.self_report req), (MoveRequest.think_time_ms req);
          cbn; rewrite ?Hs; split; reflexivity.
      * pose proof (make_move_rejected env req s A) as R.
        destruct (ENGINE env); [destruct R as (detail & R)|]; rewrite R;
          cbn [snd]; [destruct (MoveRequest.self_report req)|];
          split; assumption.
    + destruct (undo_cases s) as [E|[E|(popped & _ & _ & E)]]; rewrite E;
        split; assumption.
    + split; assumption.
Qed.


(** X1: undo with a history removes exactly the last ply from the board and
    from the move list and counts the attempt; the cached report, the
    streak, the rapid flag and the think-times stay as they were. Undo
    without a history changes nothing. *)
Lemma undo_removes_one_ply (s : Session) :
  (move_list s = [] -> undo s = (Ok (state_response s), s))
  /\ (move_list s <> [] -> consistent s ->
      exists older,
        pop (board s) = Some older
        /\ snd (undo s)
           = set_undo_attempts (undo_attempts s + 1)%Z
               (set_move_list (removelast (move_list s))
                  (set_board older s))
        /\ consistent (snd (undo s))).
Proof.
  split.
  - intros E. unfold undo. now rewrite E.
  - intros Hne Hs.
    assert (Hp : exists older, pop (board s) = Some older).
    { unfold consistent in Hs.
      destruct (exists_last Hne) as (moves & u & Em).
      rewrite Em, replay_snoc in Hs.
      destruct (replay moves) as [b|]; [|discriminate Hs].
      cbn [push_uci] in Hs.
      destruct (parse_uci (current b) u) as [m|]; [|discriminate Hs].
      injection Hs as Hs. exists b. now rewrite <- Hs, pop_push. }
    destruct Hp as (older & Hp). exists older. split; [exact Hp|]. split.
    + unfold undo.
      destruct (Nat.eqb (List.length (move_list s)) 0) eqn:N.
      * apply Nat.eqb_eq, length_zero_iff_nil in N. now contradiction Hne.
      * now rewrite Hp.
    + apply (serve_consistent UndoMove s); [discriminate | exact Hs].
Qed.

(** C2, at the failing inputs: a move that does not parse or is not legal
    is answered with status 400, and the session it leaves behind is the
    one before with the self-report of the request written into it. *)
Theorem make_move_rejected_sets_self_report
    (env : Env) (engine : StockfishEngine) (req : MoveRequest.t)
    (s : Session) (r : str) :
  ENGINE env = Some engine ->
  accepted env req s = false ->
  MoveRequest.self_report req = Some r ->
  exists detail,
    make_move env req s
    = (HTTPException 400 detail, set_self_report (Some r) s).
Proof.
  intros En A Hr. pose proof (make_move_rejected env req s A) as R.
  rewrite En, Hr in R. exact R.
Qed.

(** A rejected move that carries no self-report leaves the session as it
    was. *)
Lemma make_move_rejected_without_self_report
    (env : Env) (engine : StockfishEngine) (req : MoveRequest.t) (s : Session) :
  ENGINE env = Some engine ->
  accepted env req s = false ->
  MoveRequest.self_report req = None ->
  exists detail, make_move env req s = (HTTPException 400 detail, s).
Proof.
  intros En A Hr. pose proof (make_move_rejected env req s A) as R.
  rewrite En, Hr in R. exact R.
Qed.

(** X4: when the agent call raises during an accepted move, the exception
    escapes [make_move] after the moves were applied: the history has
    grown and the cached report is the one of the turn before. *)
Lemma make_move_agent_exception_escapes
    (env : Env) (req : MoveRequest.t) (s : Session)
    (c : char) (key : str) (e : exn) :
  accepted env req s = true ->
  api_key env = Some (c :: key) ->
  (forall s', agent_invoke env s' = AgentRaises e) ->
  fst (make_move env req s) = Unhandled e
  /\ last_agent_output (snd (make_move env req s)) = last_agent_output s
  /\ (List.length (move_list s)
      < List.length (move_list (snd (make_move env req s))))%nat.
Proof.
  unfold accepted, make_move.
  destruct (ENGINE env) as [engine|]; [|discriminate].
  destruct (parse_uci (current (board s)) _) as [move|] eqn:P; [|discriminate].
  intros Hl Hk Ha. cbn zeta.
  assert (E : current (board match MoveRequest.self_report req with
                                 | Some r => set_self_report (Some r) s
                                 | None => s end) = current (board s))
    by now destruct (MoveRequest.self_report req).
  rewrite E, P, Hl, Hk. cbn [negb].
  destruct (negb (is_game_over _)); rewrite Ha; cbn [run_coach_agent nonempty negb fst snd];
    destruct (MoveRequest.self_report req), (MoveRequest.think_time_ms req);
    cbn [last_agent_output move_list set_move_list set_board set_signals
         set_think_times_ms set_self_report];
    rewrite ?length_app; cbn [List.length]; (split; [reflexivity|]);
    (split; [reflexivity | lia]).
Qed.

(** C5, as amended: an accepted move feeds the tracker an absent label,
    the think-time of the request, and streak > 0 as the previous-blunder
    input. So the stored streak is unchanged by the move, and the rapid
    flag is set exactly when the streak is positive and the think-time
    is present and at most 1500 ms. *)
Theorem make_move_feeds_tracker_no_label
    (env : Env) (req : MoveRequest.t) (s : Session) :
  accepted env req s = true ->
  let s' := snd (make_move env req s) in
  (blunder_streak s', rapid_after_blunder s')
  = update_mental_signals_after_move None (MoveRequest.think_time_ms req)
      (blunder_streak s >? 0)%Z (blunder_streak s)
  /\ blunder_streak s' = blunder_streak s
  /\ (rapid_after_blunder s' = true <->
        (0 < blunder_streak s)%Z
        /\ exists t, MoveRequest.think_time_ms req = Some t /\ (t <= 1500)%Z).
Proof.
  intros A. cbn zeta.
  destruct (make_move_accepted env req s A)
    as (engine & move & _ & _ & _ & H).
  assert (E : blunder_streak (snd (make_move env req s))
              = blunder_streak (after_human req move s)
              /\ rapid_after_blunder (snd (make_move env req s))
                 = rapid_after_blunder (after_human req move s)).
  { destruct (after_bot_keeps engine (after_human req move s)) as (_ & H1 & H2).
    destruct H as [E|(out & E)]; rewrite E;
      cbn [blunder_streak rapid_after_blunder set_last_agent_output];
      split; assumption. }
  destruct E as [E1 E2]. rewrite E1, E2.
  pose proof (after_human_signals req move s) as S.
  split; [exact S|].
  pose proof (f_equal fst S) as S1. pose proof (f_equal snd S) as S2.
  cbn [fst snd update_mental_signals_after_move] in S1, S2.
  split; [exact S1|].
  rewrite S2. destruct (MoveRequest.think_time_ms req) as [t|].
  - rewrite andb_true_iff, Z.gtb_lt, Z.leb_le. split.
    + intros [H1 H2]. split; [exact H1|]. exists t. now split.
    + intros [H1 (t' & Et & H2)]. injection Et as ->. now split.
  - split; [discriminate|]. intros [_ (t' & Et & _)]. discriminate Et.
Qed.

(** C8, as amended: without an engine, every move request is answered
    with status 500 "Engine not initialized" and leaves the session as it
    was; a valid new-game request for black is answered with the same
    error; a valid new-game request for white does not consult the engine
    and succeeds with a reset session. *)
Theorem engine_missing_replies :
  (forall key agent (req : MoveRequest.t) (s : Session),
      make_move (mkEnv None key agent) req s
      = (HTTPException 500 (lit "Engine not initialized"), s))
  /\ (forall key agent (req : NewGameRequest.t) (s : Session),
        valid_new_game req = true ->
        lower (NewGameRequest.side req) = lit "black" ->
        fst (new_game (mkEnv None key agent) req s)
        = HTTPException 500 (lit "Engine not initialized"))
  /\ (forall key agent (req : NewGameRequest.t) (s : Session),
        valid_new_game req = true ->
        lower (NewGameRequest.side req) = lit "white" ->
        new_game (mkEnv None key agent) req s
        = (Ok (state_response (fresh req s)), fresh req s)).
Proof.
  split; [reflexivity|]. split.
  - intros key agent req s V B.
    destruct (new_game_cases (mkEnv None key agent) req s)
      as [(V' & _)|[(_ & B' & _)|[(_ & _ & _ & E)|(_ & _ & engine & En & _)]]].
    + rewrite V in V'. discriminate V'.
    + rewrite B in B'. discriminate B'.
    + now rewrite E.
    + discriminate En.
  - intros key agent req s V W.
    destruct (new_game_cases (mkEnv None key agent) req s)
      as [(V' & _)|[(_ & _ & E)|[(_ & B' & _)|(_ & B' & _)]]].
    + rewrite V in V'. discriminate V'.
    + exact E.
    + rewrite W in B'. discriminate B'.
    + rewrite W in B'. discriminate B'.
Qed.

(** C9, as amended: a move request appends its think-time to the think-times
    when it is accepted and carries one, and leaves them alone otherwise;
    undo leaves them alone; a valid new-game request empties them and an
    invalid one leaves them alone. *)
Theorem think_times_bookkeeping :
  (forall env (req : MoveRequest.t) (s : Session),
      think_times_ms (snd (make_move env req s))
      = think_times_ms s
        ++ (if accepted env req s
            then match MoveRequest.think_time_ms req with
                 | Some t => [t]
                 | None => []
                 end
            else []))
  /\ (forall s : Session, think_times_ms (snd (undo s)) = think_times_ms s)
  /\ (forall env (req : NewGameRequest.t) (s : Session),
        think_times_ms (snd (new_game env req s))
        = if valid_new_game req then [] else think_times_ms s).
Proof.
  split; [|split].
  - intros env req s. destruct (accepted env req s) eqn:A.
    + destruct (make_move_accepted env req s A)
        as (engine & move & _ & _ & _ & H).
      destruct (after_bot_keeps engine (after_human req move s)) as (T & _).
      rewrite <- after_human_think_times with (move := move), <- T.
      destruct H as [E|(out & E)]; now rewrite E.
    + pose proof (make_move_rejected env req s A) as R.
      destruct (ENGINE env); [destruct R as (detail & R)|]; rewrite R;
        cbn [snd]; [destruct (MoveRequest.self_report req)|];
        now rewrite app_nil_r.
  - intros s.
    destruct (undo_cases s) as [E|[E|(popped & _ & _ & E)]]; now rewrite E.
  - intros env req s.
    destruct (new_game_cases env req s)
      as [(V & E & _)|[(V & _ & E)|[(V & _ & _ & E)|(V & _ & engine & _ & E)]]];
      rewrite V, E; reflexivity.
Qed.

End SessionClaims.

(** ** The scripted game: witnesses and counterexamples *)

Section Scripted.
#[local] Existing Instance ascii_only.
#[local] Existing Instance scripted_rules.

(** The scripted engine answers with the move of the script. *)
Lemma scripted_engine_reparses :
  engine_moves_reparse scripted_engine.
Proof.
  intros [ply st] difficulty H.
  do 4 (destruct ply as [|ply]; [reflexivity|]).
  destruct H as [H|H]; discriminate H.
Qed.

(** C2, the failing input in the scripted game: e2e5 with the self-report
    calm on a fresh session is rejected, and the self-report is stored. *)
Lemma make_move_rejected_sets_self_report_witness :
  ENGINE env_no_key = Some scripted_engine
  /\ accepted env_no_key
       (move_request "e2e5" (Some 1200%Z) (Some (lit "calm")))
       initial_session = false
  /\ (exists detail,
        make_move env_no_key
          (move_request "e2e5" (Some 1200%Z) (Some (lit "calm")))
          initial_session
        = (HTTPException 400 detail,
           set_self_report (Some (lit "calm")) initial_session))
  /\ self_report (set_self_report (Some (lit "calm"))
                    (@initial_session scripted_rules))
     <> self_report (@initial_session scripted_rules).
Proof.
  split; [reflexivity|]. split; [reflexivity|]. split.
  - apply (make_move_rejected_sets_self_report
             env_no_key scripted_engine); reflexivity.
  - discriminate.
Defined.

(** X4, witness: e2e4 on a fresh session while the agent call fails. *)
Lemma make_move_agent_exception_escapes_witness :
  accepted env_failing (move_request "e2e4" None None) initial_session = true
  /\ fst (make_move env_failing (move_request "e2e4" None None)
            initial_session)
     = Unhandled (RuntimeError (lit "connection refused"))
  /\ move_list (snd (make_move env_failing (move_request "e2e4" None None)
                       initial_session))
     = [lit "e2e4"; lit "e7e5"].
Proof.
  split; [reflexivity|]. split; [|reflexivity].
  apply (make_move_agent_exception_escapes env_failing
           (move_request "e2e4" None None) initial_session
           115%N (lit "k-test") (RuntimeError (lit "connection refused")));
    reflexivity.
Defined.

(** C5, witness: a second move after a report labelled Blunder. *)
Lemma make_move_feeds_tracker_no_label_witness :
  accepted env_blunder (move_request "g1f3" (Some 900%Z) None)
           after_first_turn = true
  /\ blunder_streak
       (snd (make_move env_blunder
               (move_request "g1f3" (Some 900%Z) None) after_first_turn))
     = blunder_streak after_first_turn.
Proof.
  split; [reflexivity|].
  apply (make_move_feeds_tracker_no_label env_blunder
           (move_request "g1f3" (Some 900%Z) None) after_first_turn).
  reflexivity.
Defined.

(** C5, counterexample: the cached report says Blunder, the next accepted
    move leaves the streak at 0, and the tracker fed the cached label
    would have made it 1. *)
Lemma cached_label_not_fed_to_tracker :
  cached_label after_first_turn = Some Label.Blunder
  /\ ~ (forall (requests : list request) (env : Env) (req : MoveRequest.t),
          let s := run requests in
          accepted env req s = true ->
          let s' := snd (make_move env req s) in
          (blunder_streak s', rapid_after_blunder s')
          = spec_signal_update req s).
Proof.
  split; [vm_compute; reflexivity|].
  intros H.
  specialize (H [NewGame env_blunder white_game;
                 SubmitMove env_blunder (move_request "e2e4" (Some 900%Z) None)]
                env_blunder (move_request "g1f3" (Some 900%Z) None) eq_refl).
  vm_compute in H. discriminate H.
Qed.

(** X1, witness: undo in the scripted game, after one full turn. *)
Lemma undo_removes_one_ply_witness :
  move_list after_first_turn <> []
  /\ consistent after_first_turn
  /\ move_list (snd (undo after_first_turn)) = [lit "e2e4"]
  /\ exists older,
       pop (board after_first_turn) = Some older
       /\ snd (undo after_first_turn)
          = set_undo_attempts (undo_attempts after_first_turn + 1)%Z
              (set_move_list (removelast (move_list after_first_turn))
                 (set_board older after_first_turn))
       /\ consistent (snd (undo after_first_turn)).
Proof.
  assert (Hne : move_list after_first_turn <> []) by discriminate.
  assert (Hc : consistent after_first_turn) by reflexivity.
  split; [exact Hne|]. split; [exact Hc|]. split; [reflexivity|].
  exact (proj2 (undo_removes_one_ply after_first_turn) Hne Hc).
Defined.

(** C6, witness: a new game as black, a reply, and an undo. *)
Lemma replay_reproduces_board_witness :
  let requests :=
    [NewGame env_no_key black_game;
     SubmitMove env_no_key (move_request " e7e5 " None None);
     UndoMove] in
  engines_reparse requests
  /\ move_list (run requests) = [lit "e2e4"; lit "e7e5"]
  /\ replay (move_list (run requests))
     = Some (board (run requests)).
Proof.
  cbn zeta.
  assert (He : engines_reparse
                 [NewGame env_no_key black_game;
                  SubmitMove env_no_key (move_request " e7e5 " None None);
                  UndoMove]).
  { intros r env engine [<-|[<-|[<-|[]]]] Er En; try discriminate Er;
      injection Er as <-; injection En as <-; apply scripted_engine_reparses. }
  split; [exact He|]. split; [vm_compute; reflexivity|].
  apply (replay_reproduces_board _ He).
Defined.

(** C8, counterexample: without an engine a new game as white succeeds,
    and a new game as black fails after the session was reset (the move
    list of the game in progress is gone). *)
Lemma new_game_without_engine_counterexample :
  (exists body,
      fst (new_game env_no_engine white_game after_first_turn)
      = Ok body)
  /\ fst (new_game env_no_engine black_game after_first_turn)
     = HTTPException 500 (lit "Engine not initialized")
  /\ move_list after_first_turn = [lit "e2e4"; lit "e7e5"]
  /\ move_list (snd (new_game env_no_engine black_game
                       after_first_turn)) = [].
Proof.
  split; [eexists; reflexivity|]. repeat split; vm_compute; reflexivity.
Qed.

(** C8, witness: the new-game request for black without an engine. *)
Lemma engine_missing_replies_witness :
  valid_new_game black_game = true
  /\ lower (NewGameRequest.side black_game) = lit "black"
  /\ fst (new_game env_no_engine black_game after_first_turn)
     = HTTPException 500 (lit "Engine not initialized").
Proof.
  split; [reflexivity|]. split; [reflexivity|].
  apply (proj1 (proj2 (engine_missing_replies
                        ))); reflexivity.
Defined.

(** C9, counterexample: a move submitted without a think-time is one
    human move in the history and no entry in the think-times. *)
Lemma think_time_absent_counterexample :
  ~ (forall requests : list request,
        List.length (think_times_ms (run requests))
        = human_moves (run requests)).
Proof.
  intros H.
  specialize (H [NewGame env_no_key white_game;
                 SubmitMove env_no_key (move_request "e2e4" None None)]).
  vm_compute in H. discriminate H.
Qed.

End Scripted.

(** * Further properties *)

(** ** main.py and session.py *)

Section MoreSessionFacts.
Context {U : Unicode} {L : ChessLib}.

(** The reply and the session of an accepted move, in full. *)
Lemma make_move_accepted_reply (env : Env) (req : MoveRequest.t) (s : Session) :
  accepted env req s = true ->
  exists engine move,
    ENGINE env = Some engine
    /\ parse_uci (current (board s)) (strip (MoveRequest.uci_move req)) = Some move
    /\ let s1 := after_human req move s in
       let s2 := after_bot engine s1 in
       let bot_move_uci :=
         if negb (is_game_over (board s1))
         then Some (uci (get_bot_move engine (board s1) (bot_difficulty s1)))
         else None in
       make_move env req s
       = match run_coach_agent (api_key env) (agent_invoke env s2) with
         | Raised e => (Unhandled e, s2)
         | Returned out =>
             (Ok (mkMoveResponse
                    (to_state (set_last_agent_output (Some out) s2))
                    (Some out) bot_move_uci),
              set_last_agent_output (Some out) s2)
         end.
Proof.
  unfold accepted, make_move.
  destruct (ENGINE env) as [engine|]; [|discriminate].
  destruct (parse_uci (current (board s)) _) as [move|] eqn:P; [|discriminate].
  intros Hl. exists engine, move. repeat split; try assumption.
  cbn zeta.
  assert (E : current (board match MoveRequest.self_report req with
                                 | Some r => set_self_report (Some r) s
                                 | None => s end) = current (board s))
    by now destruct (MoveRequest.self_report req).
  rewrite E, P, Hl. cbn [negb].
  unfold after_bot, after_human. cbn zeta.
  destruct (negb (is_game_over _)); reflexivity.
Qed.

Lemma after_bot_lengths (engine : StockfishEngine) (s : Session) :
  List.length (move_list s) = List.length (stack (board s)) ->
  List.length (move_list (after_bot engine s))
  = List.length (stack (board (after_bot engine s))).
Proof.
  unfold after_bot. intros H. destruct (negb _); [|exact H].
  cbn [move_list board set_move_list set_board push stack].
  rewrite length_app. cbn [List.length]. lia.
Qed.

Lemma serve_lengths (r : request) (s : Session) :
  List.length (move_list s) = List.length (stack (board s)) ->
  List.length (move_list (serve r s))
  = List.length (stack (board (serve r s))).
Proof.
  intros H. destruct r as [env req|env req| |]; cbn [serve].
  - destruct (new_game_cases env req s)
      as [(_ & E & _)|[(_ & _ & E)|[(_ & _ & _ & E)|(_ & _ & engine & _ & E)]]];
      rewrite E; try assumption; reflexivity.
  - destruct (accepted env req s) eqn:A.
    + destruct (make_move_accepted env req s A)
        as (engine & move & _ & _ & _ & Hs).
      assert (C : List.length (move_list (after_bot engine (after_human req move s)))
                  = List.length (stack (board (after_bot engine (after_human req move s))))).
      { apply after_bot_lengths.
        rewrite after_human_move_list, after_human_board, length_app.
        cbn [List.length push stack]. lia. }
      destruct Hs as [E|(out & E)]; rewrite E; exact C.
    + pose proof (make_move_rejected env req s A) as R.
      destruct (ENGINE env); [destruct R as (detail & R)|]; rewrite R;
        cbn [snd]; [destruct (MoveRequest.self_report req)|]; exact H.
  - destruct (undo_cases s) as [E|[E|(popped & Hne & Hp & E)]]; rewrite E;
      try exact H.
    cbn [snd move_list board set_move_list set_board set_undo_attempts].
    unfold pop in Hp. destruct (stack (board s)) as [|[p m] older] eqn:Es;
      [discriminate Hp|].
    injection Hp as <-. cbn [stack].
    destruct (exists_last Hne) as (moves & u & Em).
    rewrite Em in *. rewrite removelast_last. rewrite length_app in H.
    cbn [List.length] in H. lia.
  - exact H.
Qed.

(** X5: in every session reached from a fresh process the move list is
    as long as the stack of the board, so undo finds a move to pop
    whenever the move list is not empty: it never raises. *)
Theorem undo_never_raises (requests : list request) :
  List.length (move_list (run requests))
  = List.length (stack (board (run requests)))
  /\ exists body, fst (undo (run requests)) = Ok body.
Proof.
  assert (H : List.length (move_list (run requests))
              = List.length (stack (board (run requests)))).
  { apply (run_invariant
             (fun s => List.length (move_list s) = List.length (stack (board s)))).
    - reflexivity.
    - intros r s. apply serve_lengths. }
  split; [exact H|].
  unfold undo.
  destruct (Nat.eqb (List.length (move_list (run requests))) 0) eqn:N;
    [eexists; reflexivity|].
  unfold pop. destruct (stack (board (run requests))) as [|[p m] older].
  - rewrite H in N. discriminate N.
  - eexists; reflexivity.
Qed.


(** X7: the side is white or black, the difficulty easy, medium or hard,
    and the verbosity between 1 and 3, in every session reached from a
    fresh process. *)
Theorem settings_stay_valid (requests : list request) :
  In (player_side (run requests)) [lit "white"; lit "black"]
  /\ In (bot_difficulty (run requests)) [lit "easy"; lit "medium"; lit "hard"]
  /\ (1 <= coach_verbosity (run requests) <= 3)%Z.
Proof.
  apply (run_invariant
           (fun s => In (player_side s) [lit "white"; lit "black"]
                     /\ In (bot_difficulty s) [lit "easy"; lit "medium"; lit "hard"]
                     /\ (1 <= coach_verbosity s <= 3)%Z)).
  - split; [left; reflexivity|]. split; [right; left; reflexivity|]. cbn. lia.
  - intros [env req|env req| |] s H; cbn [serve].
    + assert (V : valid_new_game req = true ->
                  In (lower (NewGameRequest.side req)) [lit "white"; lit "black"]
                  /\ In (lower (NewGameRequest.bot_difficulty req))
                        [lit "easy"; lit "medium"; lit "hard"]
                  /\ (1 <= NewGameRequest.coach_verbosity req <= 3)%Z).
      { unfold valid_new_game. intros V.
        apply andb_true_iff in V as [V V3]. apply andb_true_iff in V as [V1 V2].
        apply str_mem_In in V1, V2. repeat split; try assumption;
          apply negb_true_iff, orb_false_iff in V3; lia. }
      destruct (new_game_cases env req s)
        as [(_ & E & _)|[(Hv & _ & E)|[(Hv & _ & _ & E)|(Hv & _ & engine & _ & E)]]];
        rewrite E; try exact H; exact (V Hv).
    + destruct (accepted env req s) eqn:A.
      * destruct (make_move_accepted env req s A)
          as (engine & move & _ & _ & _ & [E|(out & E)]); rewrite E;
          unfold after_bot, after_human; cbn zeta;
          destruct (negb (is_game_over _));
          destruct (MoveRequest.self_report req), (MoveRequest.think_time_ms req);
          exact H.
      * pose proof (make_move_rejected env req s A) as R.
        destruct (ENGINE env); [destruct R as (detail & R)|]; rewrite R;
          cbn [snd]; [destruct (MoveRequest.self_report req)|]; exact H.
    + destruct (undo_cases s) as [E|[E|(popped & _ & _ & E)]]; rewrite E; exact H.
    + exact H.
Qed.

(** X8: no request moves the clocks or the captured pieces: in every
    reached session both clocks stand at five minutes and both capture
    lists are empty; the undo counter is never negative. *)
Theorem clocks_and_captures_never_move (requests : list request) :
  white_ms (run requests) = 300000%Z
  /\ black_ms (run requests) = 300000%Z
  /\ captured_pieces (run requests) = [(lit "white", []); (lit "black", [])]
  /\ (0 <= undo_attempts (run requests))%Z.
Proof.
  apply (run_invariant
           (fun s => white_ms s = 300000%Z /\ black_ms s = 300000%Z
                     /\ captured_pieces s = [(lit "white", []); (lit "black", [])]
                     /\ (0 <= undo_attempts s)%Z)).
  - repeat split. cbn. lia.
  - intros [env req|env req| |] s H; cbn [serve].
    + destruct (new_game_cases env req s)
        as [(_ & E & _)|[(Hv & _ & E)|[(Hv & _ & _ & E)|(Hv & _ & engine & _ & E)]]];
        rewrite E; try exact H; repeat split; cbn; lia.
    + destruct (accepted env req s) eqn:A.
      * destruct (make_move_accepted env req s A)
          as (engine & move & _ & _ & _ & [E|(out & E)]); rewrite E;
          unfold after_bot, after_human; cbn zeta;
          destruct (negb (is_game_over _));
          destruct (MoveRequest.self_report req), (MoveRequest.think_time_ms req);
          exact H.
      * pose proof (make_move_rejected env req s A) as R.
        destruct (ENGINE env); [destruct R as (detail & R)|]; rewrite R;
          cbn [snd]; [destruct (MoveRequest.self_report req)|]; exact H.
    + destruct (undo_cases s) as [E|[E|(popped & _ & _ & E)]]; rewrite E;
        try exact H.
      destruct H as (H1 & H2 & H3 & H4). repeat split; try assumption.
      cbn. lia.
    + exact H.
Qed.

End MoreSessionFacts.

Section MoreSessionClaims.
Context {U : Unicode} {L : ChessLib}.

Lemma after_bot_board_moves (engine : StockfishEngine) (s : Session) :
  if is_game_over (board s)
  then board (after_bot engine s) = board s
       /\ move_list (after_bot engine s) = move_list s
  else let bot := get_bot_move engine (board s) (bot_difficulty s) in
       board (after_bot engine s) = push (board s) bot
       /\ move_list (after_bot engine s) = move_list s ++ [uci bot].
Proof.
  unfold after_bot. destruct (is_game_over (board s)); cbn; split; reflexivity.
Qed.

Lemma after_human_difficulty (req : MoveRequest.t) (move : Move) (s : Session) :
  bot_difficulty (after_human req move s) = bot_difficulty s.
Proof.
  unfold after_human.
  now destruct (MoveRequest.self_report req), (MoveRequest.think_time_ms req).
Qed.

(** X9: an accepted move pushes the human move and appends its stripped
    text; unless the game is then over, the move of the engine on that
    board follows, and the reply names it; when the game is over the
    reply names no engine move. *)
Theorem accepted_move_appends_plies
    (env : Env) (req : MoveRequest.t) (s : Session) :
  accepted env req s = true ->
  exists engine move,
    ENGINE env = Some engine
    /\ parse_uci (current (board s)) (strip (MoveRequest.uci_move req))
       = Some move
    /\ let text := strip (MoveRequest.uci_move req) in
       let b1 := push (board s) move in
       let bot := get_bot_move engine b1 (bot_difficulty s) in
       let s' := snd (make_move env req s) in
       if is_game_over b1
       then board s' = b1
            /\ move_list s' = move_list s ++ [text]
            /\ forall resp, fst (make_move env req s) = Ok resp ->
                            bot_move resp = None
       else board s' = push b1 bot
            /\ move_list s' = move_list s ++ [text; uci bot]
            /\ forall resp, fst (make_move env req s) = Ok resp ->
                            bot_move resp = Some (uci bot).
Proof.
  intros A.
  destruct (make_move_accepted_reply env req s A) as (engine & move & En & P & R).
  exists engine, move. split; [exact En|]. split; [exact P|].
  cbn zeta in *.
  pose proof (after_bot_board_moves engine (after_human req move s)) as B.
  rewrite after_human_board, after_human_move_list, after_human_difficulty in B.
  rewrite after_human_board, after_human_difficulty in R.
  destruct (is_game_over (push (board s) move)); cbn [negb] in R;
    cbn zeta in B; destruct B as [B1 B2];
    rewrite R; destruct (run_coach_agent _ _) as [out|e]; cbn [fst snd];
    cbn [board move_list set_last_agent_output];
    rewrite B1, B2, <- ?app_assoc; cbn [app];
    (split; [reflexivity|]); (split; [reflexivity|]);
    intros resp E; try discriminate E; injection E as <-; reflexivity.
Qed.

(** X10: without a key (unset or empty) an accepted move always succeeds:
    the reply carries the canned report, the session caches it, and the
    state of the reply is the state of the session. *)
Theorem accepted_move_without_key_gets_canned_report
    (env : Env) (req : MoveRequest.t) (s : Session) :
  accepted env req s = true ->
  api_key env = None \/ api_key env = Some [] ->
  let canned := parse_agent_report missing_key_report in
  exists resp,
    fst (make_move env req s) = Ok resp
    /\ move_agent_output resp = Some canned
    /\ last_agent_output (snd (make_move env req s)) = Some canned
    /\ move_state resp = to_state (snd (make_move env req s)).
Proof.
  intros A K. cbn zeta.
  destruct (make_move_accepted_reply env req s A) as (engine & move & _ & _ & R).
  cbn zeta in R. rewrite R.
  assert (E : forall invoke,
             run_coach_agent (api_key env) invoke
             = Returned (parse_agent_report missing_key_report)).
  { intros invoke. destruct K as [-> | ->]; reflexivity. }
  rewrite E. eexists. cbn [fst snd]. repeat split.
Qed.

(** X11: a state request after a successful move, new game or undo
    returns the state and the report of that reply. *)
Theorem get_state_repeats_last_reply :
  (forall env (req : MoveRequest.t) (s : Session) resp,
      fst (make_move env req s) = Ok resp ->
      get_state (snd (make_move env req s))
      = (Ok (mkStateResponse (move_state resp) (move_agent_output resp)),
         snd (make_move env req s)))
  /\ (forall env (req : NewGameRequest.t) (s : Session) resp,
        fst (new_game env req s) = Ok resp ->
        get_state (snd (new_game env req s))
        = (Ok resp, snd (new_game env req s)))
  /\ (forall (s : Session) resp,
        fst (undo s) = Ok resp ->
        get_state (snd (undo s)) = (Ok resp, snd (undo s))).
Proof.
  split; [|split].
  - intros env req s resp H. destruct (accepted env req s) eqn:A.
    + destruct (make_move_accepted_reply env req s A)
        as (engine & move & _ & _ & R).
      cbn zeta in R. rewrite R in *.
      destruct (run_coach_agent _ _) as [out|e]; cbn [fst snd] in *;
        [|discriminate H].
      injection H as <-. reflexivity.
    + pose proof (make_move_rejected env req s A) as R.
      destruct (ENGINE env); [destruct R as (detail & R)|]; rewrite R in H;
        discriminate H.
  - intros env req s resp H. unfold new_game in *.
    destruct (negb (str_mem (lower (NewGameRequest.side req)) _));
      [discriminate H|].
    destruct (negb (str_mem (lower (NewGameRequest.bot_difficulty req)) _));
      [discriminate H|].
    destruct (_ || _)%bool; [discriminate H|]. cbn zeta in *.
    destruct (str_eqb _ _).
    + destruct (ENGINE env); [|discriminate H].
      cbn [fst snd] in *. injection H as <-. reflexivity.
    + cbn [fst snd] in *. injection H as <-. reflexivity.
  - intros s resp H. unfold undo in *.
    destruct (Nat.eqb _ 0).
    + cbn [fst snd] in *. injection H as <-. reflexivity.
    + destruct (pop (board s)); [|discriminate H].
      cbn [fst snd] in *. injection H as <-. reflexivity.
Qed.

(** X12: a request whose verbosity passed the bounds of the request model
    is never answered with the verbosity error of the handler; it is valid
    exactly when its side and its difficulty are. *)
Theorem validated_request_passes_verbosity_check
    (env : Env) (req : NewGameRequest.t) (s : Session) :
  verbosity_in_range req = true ->
  fst (new_game env req s)
  <> HTTPException 400 (lit "coach_verbosity must be 1..3")
  /\ valid_new_game req
     = str_mem (lower (NewGameRequest.side req)) [lit "white"; lit "black"]
       && str_mem (lower (NewGameRequest.bot_difficulty req))
                  [lit "easy"; lit "medium"; lit "hard"].
Proof.
  unfold verbosity_in_range. intros V.
  apply andb_true_iff in V as [V1 V2].
  assert (F : ((NewGameRequest.coach_verbosity req <? 1)
               || (NewGameRequest.coach_verbosity req >? 3))%Z = false).
  { apply orb_false_iff. split; lia. }
  split.
  - unfold new_game. rewrite F.
    destruct (negb (str_mem (lower (NewGameRequest.side req)) _));
      [cbn [fst]; intros E; injection E as E; vm_compute in E; discriminate E|].
    destruct (negb (str_mem (lower (NewGameRequest.bot_difficulty req)) _));
      [cbn [fst]; intros E; injection E as E; vm_compute in E; discriminate E|].
    cbn zeta. destruct (str_eqb _ _); [destruct (ENGINE env)|]; cbn [fst];
      intros E; discriminate E.
  - unfold valid_new_game. rewrite F. cbn [negb]. now rewrite andb_true_r.
Qed.

End MoreSessionClaims.

Section ReplyFacts.
Context {U : Unicode} {L : ChessLib}.

(** X13: the reply to a successful new game shows a fresh session: no
    report, empty signals, full clocks, no captures, and a history that
    is empty for white and the first move of the engine for black. *)
Theorem new_game_reply_is_fresh
    (env : Env) (req : NewGameRequest.t) (s : Session) (resp : StateResponse) :
  fst (new_game env req s) = Ok resp ->
  let st := state resp in
  agent_output resp = None
  /\ GameState.signals st = SignalState.mk [] 0 0 false None
  /\ GameState.clocks st = (300000, 300000)%Z
  /\ GameState.captured_pieces st = [(lit "white", []); (lit "black", [])]
  /\ GameState.move_list st = move_list (snd (new_game env req s))
  /\ (lower (NewGameRequest.side req) = lit "white" /\ GameState.move_list st = []
      \/ lower (NewGameRequest.side req) = lit "black"
         /\ exists engine,
              ENGINE env = Some engine
              /\ GameState.move_list st
                 = [uci (get_bot_move engine new_board
                           (lower (NewGameRequest.bot_difficulty req)))]).
Proof.
  unfold new_game.
  destruct (str_mem (lower (NewGameRequest.side req)) _) eqn:Hside;
    cbn [negb]; [|discriminate].
  destruct (negb (str_mem (lower (NewGameRequest.bot_difficulty req)) _));
    [discriminate|].
  destruct (_ || _)%bool; [discriminate|]. cbn zeta.
  apply str_mem_In in Hside.
  destruct (str_eqb (lower (NewGameRequest.side req)) (lit "black")) eqn:B.
  - apply str_eqb_eq in B.
    destruct (ENGINE env) as [engine|]; [|discriminate].
    cbn [fst snd]. intros E. injection E as <-. cbn.
    repeat split. right. split; [exact B|]. exists engine. split; reflexivity.
  - cbn [fst snd]. intros E. injection E as <-. cbn.
    repeat split. left. split; [|reflexivity].
    destruct Hside as [H|[H|[]]]; [now rewrite <- H|].
    rewrite <- H, str_eqb_refl in B. discriminate B.
Qed.

End ReplyFacts.

(** ** analysis.py, chess_engine.py and config.py *)

Example str_of_int_examples :
  str_of_int 0 = lit "0" /\ str_of_int (-35) = lit "-35" /\ str_of_int 120 = lit "120".
Proof. repeat split; reflexivity. Qed.

(** X14: the label of the classification tool depends on the swing only
    and is monotone in it: a swing that is no better gets a label that is
    no better. *)
Theorem classify_worse_swing_worse_label
    (before1 after1 before2 after2 : Z) :
  (after1 - before1 <= after2 - before2)%Z ->
  let l1 := classify_last_move (Some before1) (Some after1) in
  let l2 := classify_last_move (Some before2) (Some after2) in
  (after1 - before1 = after2 - before2 -> l1 = l2)%Z
  /\ (l1 = Label.Good -> l2 = Label.Good)
  /\ (l2 = Label.Inaccuracy ->
      In l1 [Label.Inaccuracy; Label.Mistake; Label.Blunder])
  /\ (l2 = Label.Mistake -> In l1 [Label.Mistake; Label.Blunder])
  /\ (l2 = Label.Blunder -> l1 = Label.Blunder).
Proof.
  intros H. cbn zeta. unfold classify_last_move, classify_move_quality_from_swing.
  set (s1 := (after1 - before1)%Z) in *. set (s2 := (after2 - before2)%Z) in *.
  split; [intros ->; reflexivity|].
  destruct (s1 >=? -30)%Z eqn:A1;
    [|destruct ((-90 <=? s1) && (s1 <=? -31))%Z eqn:B1;
      [|destruct ((-200 <=? s1) && (s1 <=? -91))%Z eqn:C1]];
  (destruct (s2 >=? -30)%Z eqn:A2;
    [|destruct ((-90 <=? s2) && (s2 <=? -31))%Z eqn:B2;
      [|destruct ((-200 <=? s2) && (s2 <=? -91))%Z eqn:C2]]);
  cbn [label]; try lia;
  repeat split; intros E; try discriminate E; try reflexivity;
    cbn [In]; auto.
Qed.

(** X15: the tracker understands every label of the classification tool:
    fed that label, it increments the streak when both evaluations are
    present and the swing is -91 or worse, and resets it to 0 otherwise;
    its keep-the-streak fallback is never taken. *)
Theorem tracker_on_classifier_label
    (eval_before_cp eval_after_cp : option Z) (think_time_ms : option Z)
    (last_move_was_blunder : bool) (streak : Z) :
  fst (update_mental_signals_after_move
         (Some (classify_last_move eval_before_cp eval_after_cp))
         think_time_ms last_move_was_blunder streak)
  = match eval_before_cp, eval_after_cp with
    | Some before, Some after =>
        if (after - before <=? -91)%Z then (streak + 1)%Z else 0%Z
    | _, _ => 0%Z
    end.
Proof.
  unfold classify_last_move, classify_move_quality_from_swing.
  destruct eval_before_cp as [before|], eval_after_cp as [after|];
    try reflexivity.
  set (s := (after - before)%Z).
  destruct (s >=? -30)%Z eqn:A;
    [|destruct ((-90 <=? s) && (s <=? -31))%Z eqn:B;
      [|destruct ((-200 <=? s) && (s <=? -91))%Z eqn:C]];
    cbn [label];
    destruct (s <=? -91)%Z eqn:D; try lia; reflexivity.
Qed.

Section AnalysisFacts.
Context {L : ChessLib}.


(** X16: an analysis entry with a mate score has no centipawn value, so
    a move whose position before or after is scored as mate is labelled
    Good by the classification tool. *)
Theorem mate_score_is_labelled_good (before after : InfoEntry) (n : Z) :
  score before = Mate n \/ score after = Mate n ->
  classify_last_move (eval_cp (parse_info before)) (eval_cp (parse_info after))
  = Label.Good.
Proof.
  unfold parse_info, classify_last_move.
  intros [H|H]; rewrite H; cbn [eval_cp];
    destruct (score before), (score after); reflexivity.
Qed.


End AnalysisFacts.

Section ConfigFacts.
Context {F : FileSystem}.

Lemma first_existing_spec (paths : list str) :
  match first_existing paths with
  | Some p =>
      exists before src after,
        paths = before ++ src :: after
        /\ p = path_str src /\ path_exists src = true
        /\ Forall (fun q => path_exists q = false) before
  | None => Forall (fun q => path_exists q = false) paths
  end.
Proof.
  induction paths as [|q paths IH]; cbn [first_existing]; [constructor|].
  destruct (path_exists q) eqn:E.
  - exists [], q, paths. repeat split; [exact E | constructor].
  - destruct (first_existing paths) as [p|].
    + destruct IH as (before & src & after & -> & Hp & He & Hb).
      exists (q :: before), src, after. repeat split; try assumption.
      now constructor.
    + now constructor.
Qed.

(** X18: a binary that is found exists, and is the configured path or a
    common one; a configured path that does not exist is an error, with
    no fall-back to the common paths; without a configured path the
    first existing common path is taken, and the error means that none
    exists. *)
Theorem find_stockfish_binary_priority (STOCKFISH_PATH : option str) :
  (forall p, find_stockfish_binary STOCKFISH_PATH = Binary p ->
     exists src,
       p = path_str src /\ path_exists src = true
       /\ (STOCKFISH_PATH = Some src \/ In src common_paths))
  /\ (forall c path,
        STOCKFISH_PATH = Some (c :: path) ->
        path_exists (c :: path) = false ->
        find_stockfish_binary STOCKFISH_PATH
        = FileNotFoundError
            (lit "STOCKFISH_PATH set but not found: " ++ path_str (c :: path)))
  /\ (STOCKFISH_PATH = None \/ STOCKFISH_PATH = Some [] ->
      match find_stockfish_binary STOCKFISH_PATH with
      | Binary p =>
          exists before src after,
            common_paths = before ++ src :: after
            /\ p = path_str src /\ path_exists src = true
            /\ Forall (fun q => path_exists q = false) before
      | FileNotFoundError _ =>
          Forall (fun q => path_exists q = false) common_paths
      end).
Proof.
  pose proof (first_existing_spec common_paths) as S.
  split; [|split].
  - intros p H. destruct STOCKFISH_PATH as [[|c path]|];
      cbn [find_stockfish_binary] in H.
    + destruct (first_existing common_paths) as [q|]; [|discriminate H].
      injection H as <-. destruct S as (before & src & after & E & Hp & He & _).
      exists src. repeat split; try assumption. right. rewrite E.
      apply in_or_app. right. left. reflexivity.
    + destruct (path_exists (c :: path)) eqn:E; [|discriminate H].
      injection H as <-. exists (c :: path). repeat split; [exact E|].
      left. reflexivity.
    + destruct (first_existing common_paths) as [q|]; [|discriminate H].
      injection H as <-. destruct S as (before & src & after & E & Hp & He & _).
      exists src. repeat split; try assumption. right. rewrite E.
      apply in_or_app. right. left. reflexivity.
  - intros c path -> E. cbn [find_stockfish_binary]. now rewrite E.
  - intros [-> | ->]; cbn [find_stockfish_binary];
      destruct (first_existing common_paths); exact S.
Qed.

End ConfigFacts.

Section DepthFacts.
Context {U : Unicode} {L : ChessLib}.

(** X19: the difficulty of every reached session is a key of the depth
    table of the engine, so the depth of a bot move is 6, 10 or 15 and
    the default of the lookup is never needed. *)
Theorem bot_depth_is_listed (requests : list request) :
  dict_get depth_by_level (bot_difficulty (run requests))
  = Some (bot_depth (bot_difficulty (run requests)))
  /\ In (bot_depth (bot_difficulty (run requests))) [6%Z; 10%Z; 15%Z].
Proof.
  assert (H : In (bot_difficulty (run requests))
                 [lit "easy"; lit "medium"; lit "hard"]).
  { apply (run_invariant
             (fun s => In (bot_difficulty s) [lit "easy"; lit "medium"; lit "hard"])).
    - right; left; reflexivity.
    - intros [env req|env req| |] s H; cbn [serve].
      + destruct (new_game_cases env req s)
          as [(_ & E & _)|[(Hv & _ & E)|[(Hv & _ & _ & E)|(Hv & _ & engine & _ & E)]]];
          rewrite E; try exact H;
          unfold valid_new_game in Hv;
          apply andb_true_iff in Hv as [Hv _]; apply andb_true_iff in Hv as [_ Hv];
          apply str_mem_In in Hv; exact Hv.
      + destruct (accepted env req s) eqn:A.
        * destruct (make_move_accepted env req s A)
            as (engine & move & _ & _ & _ & [E|(out & E)]); rewrite E;
            unfold after_bot, after_human; cbn zeta;
            destruct (negb (is_game_over _));
            destruct (MoveRequest.self_report req), (MoveRequest.think_time_ms req);
            exact H.
        * pose proof (make_move_rejected env req s A) as R.
          destruct (ENGINE env); [destruct R as (detail & R)|]; rewrite R;
            cbn [snd]; [destruct (MoveRequest.self_report req)|]; exact H.
      + destruct (undo_cases s) as [E|[E|(popped & _ & _ & E)]]; rewrite E; exact H.
      + exact H. }
  destruct H as [<-|[<-|[<-|[]]]]; split; try reflexivity; cbn; auto.
Qed.

End DepthFacts.

(** ** agent.py: sections, bullets and the label *)

Lemma lstrip_by_suffix (p : char -> bool) (s : str) :
  exists l, s = l ++ lstrip_by p s.
Proof.
  induction s as [|c s IH]; [exists []; reflexivity|].
  cbn [lstrip_by]. destruct (p c).
  - destruct IH as (l & E). exists (c :: l). cbn. now rewrite <- E.
  - exists []. reflexivity.
Qed.

Lemma lstrip_by_Forall (P : char -> Prop) (p : char -> bool) (s : str) :
  Forall P s -> Forall P (lstrip_by p s).
Proof.
  intros H. destruct (lstrip_by_suffix p s) as (l & E).
  rewrite E in H. now apply Forall_app in H.
Qed.

Lemma strip_by_Forall (P : char -> Prop) (p : char -> bool) (s : str) :
  Forall P s -> Forall P (strip_by p s).
Proof.
  intros H. unfold strip_by, rstrip_by.
  apply Forall_rev, lstrip_by_Forall, Forall_rev, lstrip_by_Forall, H.
Qed.

Lemma lstrip_by_head (p : char -> bool) (s : str) :
  match lstrip_by p s with c :: _ => p c = false | [] => True end.
Proof.
  induction s as [|c s IH]; [exact I|].
  cbn [lstrip_by]. destruct (p c) eqn:E; [exact IH | exact E].
Qed.

Lemma lstrip_by_fixed (p : char -> bool) (s : str) :
  match s with c :: _ => p c = false | [] => True end -> lstrip_by p s = s.
Proof. destruct s as [|c s]; [reflexivity|]. cbn. now intros ->. Qed.

Lemma lstrip_by_snoc (p : char -> bool) (l : str) (c : char) :
  p c = false -> lstrip_by p (l ++ [c]) = lstrip_by p l ++ [c].
Proof.
  intros H. induction l as [|d l IH]; cbn; [now rewrite H|].
  destruct (p d); [exact IH | reflexivity].
Qed.

Lemma strip_by_idempotent (p : char -> bool) (s : str) :
  strip_by p (strip_by p s) = strip_by p s.
Proof.
  unfold strip_by, rstrip_by.
  pose proof (lstrip_by_head p s) as H.
  set (x := lstrip_by p s) in *.
  assert (Hr : match rev (lstrip_by p (rev x)) with
               | c :: _ => p c = false | [] => True end).
  { destruct x as [|c t]; [exact I|].
    cbn [rev]. rewrite lstrip_by_snoc by exact H.
    rewrite rev_app_distr. cbn. exact H. }
  rewrite (lstrip_by_fixed p _ Hr), rev_involutive.
  rewrite (lstrip_by_fixed p (lstrip_by p (rev x))); [reflexivity|].
  apply lstrip_by_head.
Qed.

Lemma strip_idempotent (s : str) : strip (strip s) = strip s.
Proof. apply strip_by_idempotent. Qed.

Lemma drop_prefix_Forall (P : char -> Prop) (prefix s rest : str) :
  drop_prefix prefix s = Some rest -> Forall P s -> Forall P rest.
Proof.
  revert s. induction prefix as [|a prefix IH]; intros s E H.
  - cbn in E. now injection E as <-.
  - destruct s as [|c s]; [discriminate E|]. cbn in E.
    destruct (N.eqb a c); [|discriminate E].
    apply (IH s E). now inversion H.
Qed.

Lemma drop_prefix_app (prefix s rest : str) :
  drop_prefix prefix s = Some rest -> s = prefix ++ rest.
Proof.
  revert s. induction prefix as [|a prefix IH]; intros s E.
  - cbn in E. now injection E as <-.
  - destruct s as [|c s]; [discriminate E|]. cbn in E.
    destruct (N.eqb a c) eqn:Ea; [|discriminate E].
    apply N.eqb_eq in Ea. subst c. cbn. now rewrite <- (IH s E).
Qed.

Lemma splitlines_from_single_lines (n : nat) :
  forall (s cur : str),
    (List.length s <= n)%nat ->
    Forall (fun c => is_linebreak c = false) cur ->
    Forall (Forall (fun c => is_linebreak c = false)) (splitlines_from cur s).
Proof.
  induction n as [|n IH]; intros s cur Hn Hc.
  - destruct s; [|cbn in Hn; lia]. cbn.
    destruct cur; [constructor | constructor; [now apply Forall_rev | constructor]].
  - destruct s as [|c t].
    + cbn. destruct cur; [constructor | constructor; [now apply Forall_rev | constructor]].
    + cbn [splitlines_from]. cbn [List.length] in Hn.
      destruct (is_linebreak c) eqn:Eb.
      * destruct t as [|d t'].
        -- constructor; [now apply Forall_rev | constructor].
        -- destruct (N.eqb c 13 && N.eqb d 10)%bool.
           ++ constructor; [now apply Forall_rev|].
              apply IH; [cbn [List.length] in Hn; lia | constructor].
           ++ constructor; [now apply Forall_rev|].
              apply IH; [lia | constructor].
      * apply IH; [lia|]. now constructor.
Qed.

Lemma splitlines_single_lines (s : str) :
  Forall (Forall (fun c => is_linebreak c = false)) (splitlines s).
Proof.
  apply (splitlines_from_single_lines (List.length s)); [lia | constructor].
Qed.

Section ParserFacts.
Context {U : Unicode}.

(** The matcher only moves forward: the continuation is entered on a
    suffix of the text. *)
Lemma star_greedy_suffix (A : Type) (p : char -> bool)
    (k : str -> str -> option A) (rest : str) :
  forall pre res,
    star_greedy p k pre rest = Some res ->
    exists pre' l rest', rest = l ++ rest' /\ k pre' rest' = Some res.
Proof.
  induction rest as [|c t IH]; intros pre res H; cbn [star_greedy] in H.
  - exists pre, [], []. split; [reflexivity | exact H].
  - destruct (p c).
    + destruct (star_greedy p k (c :: pre) t) as [r|] eqn:E.
      * injection H as <-. destruct (IH _ _ E) as (pre' & l & rest' & -> & Hk).
        exists pre', (c :: l), rest'. split; [reflexivity | exact Hk].
      * exists pre, [], (c :: t). split; [reflexivity | exact H].
    + exists pre, [], (c :: t). split; [reflexivity | exact H].
Qed.

Lemma star_lazy_suffix (A : Type) (p : char -> bool)
    (k : str -> str -> option A) (rest : str) :
  forall pre res,
    star_lazy p k pre rest = Some res ->
    exists pre' l rest', rest = l ++ rest' /\ k pre' rest' = Some res.
Proof.
  induction rest as [|c t IH]; intros pre res H; cbn [star_lazy] in H.
  - destruct (k pre []) eqn:E; [|discriminate H].
    exists pre, [], []. split; [reflexivity|]. now rewrite E.
  - destruct (k pre (c :: t)) eqn:E.
    + exists pre, [], (c :: t). split; [reflexivity|]. now rewrite E.
    + destruct (p c); [|discriminate H].
      destruct (IH _ _ H) as (pre' & l & rest' & -> & Hk).
      exists pre', (c :: l), rest'. split; [reflexivity | exact Hk].
Qed.

Lemma rmatch_suffix (r : regex) :
  forall (A : Type) (pre rest : str) (k : str -> str -> option A) (res : A),
    rmatch r pre rest k = Some res ->
    exists pre' l rest', rest = l ++ rest' /\ k pre' rest' = Some res.
Proof.
  induction r as [s|p|p|p|a IHa b IHb|a IHa b IHb|a IHa| | |];
    intros A pre rest k res H; cbn [rmatch] in H.
  - destruct (drop_prefix s rest) as [rest'|] eqn:E; [|discriminate H].
    exists (rev s ++ pre), s, rest'. split; [now apply drop_prefix_app | exact H].
  - destruct rest as [|c t]; [discriminate H|].
    destruct (p c); [|discriminate H].
    exists (c :: pre), [c], t. split; [reflexivity | exact H].
  - now apply star_greedy_suffix in H.
  - now apply star_lazy_suffix in H.
  - apply IHa in H as (pre1 & l1 & rest1 & -> & H).
    apply IHb in H as (pre2 & l2 & rest2 & -> & H).
    exists pre2, (l1 ++ l2), rest2. split; [now rewrite app_assoc | exact H].
  - destruct (rmatch a pre rest k) as [r|] eqn:E.
    + injection H as <-. now apply IHa in E.
    + now apply IHb in H.
  - destruct (rmatch a pre rest _); [|discriminate H].
    exists pre, [], rest. split; [reflexivity | exact H].
  - destruct rest; [|discriminate H].
    exists pre, [], []. split; [reflexivity | exact H].
  - destruct pre; [|discriminate H].
    exists [], [], rest. split; [reflexivity | exact H].
  - destruct (xorb _ _); [|discriminate H].
    exists pre, [], rest. split; [reflexivity | exact H].
Qed.

Lemma re_sub_anchored_Forall (P : char -> Prop) (r : regex) (s : str) :
  Forall P s -> Forall P (re_sub_anchored r s).
Proof.
  intros H. unfold re_sub_anchored, re_match.
  destruct (rmatch r [] s _) as [rest'|] eqn:E; [|exact H].
  apply rmatch_suffix in E as (pre' & l & rest & -> & Hk).
  injection Hk as <-. now apply Forall_app in H.
Qed.

Lemma stripped_item_well_formed (x : str) :
  Forall (fun c => is_linebreak c = false) x ->
  nonempty (strip x) = true ->
  well_formed_bullet (strip x).
Proof.
  intros H N. split; [|split].
  - intros E. rewrite E in N. discriminate N.
  - apply strip_idempotent.
  - now apply strip_by_Forall.
Qed.

Lemma _bullets_well_formed (block : str) :
  Forall well_formed_bullet (_bullets block).
Proof.
  unfold _bullets. apply Forall_forall. intros b Hb.
  apply filter_In in Hb as [Hb N].
  apply in_flat_map in Hb as (line & Hl & Hb).
  pose proof (splitlines_single_lines block) as S.
  rewrite Forall_forall in S. specialize (S line Hl).
  destruct (drop_prefix (lit "- ") (strip line)) as [rest|] eqn:E; [|destruct Hb].
  destruct Hb as [<-|[]].
  apply stripped_item_well_formed; [|exact N].
  apply (drop_prefix_Forall _ _ _ _ E). now apply strip_by_Forall.
Qed.

Lemma _numbered_well_formed (block : str) :
  Forall well_formed_bullet (_numbered block).
Proof.
  unfold _numbered. apply Forall_forall. intros b Hb.
  apply filter_In in Hb as [Hb N].
  apply in_flat_map in Hb as (line & Hl & Hb).
  pose proof (splitlines_single_lines block) as S.
  rewrite Forall_forall in S. specialize (S line Hl).
  destruct (re_match numbered_re (strip line)); [|destruct Hb].
  destruct Hb as [<-|[]].
  apply stripped_item_well_formed; [|exact N].
  apply re_sub_anchored_Forall. now apply strip_by_Forall.
Qed.

Lemma Forall_firstn_keep (A : Type) (P : A -> Prop) (n : nat) (l : list A) :
  Forall P l -> Forall P (firstn n l).
Proof.
  intros H. rewrite <- (firstn_skipn n l) in H. now apply Forall_app in H.
Qed.

(** X20: every bullet of every list of a parsed report (observed signals,
    why, threats, both plans, coaching) is not empty, has no white space
    at either end and no line boundary inside; the plans are keyed white
    and black, and there are at most three coaching bullets. *)
Theorem parsed_bullets_well_formed (text : str) :
  let out := parse_agent_report text in
  Forall well_formed_bullet (observed_signals (mental out))
  /\ Forall well_formed_bullet (why (position out))
  /\ Forall well_formed_bullet (threats (position out))
  /\ Forall (fun side => Forall well_formed_bullet (snd side))
            (plans (position out))
  /\ map fst (plans (position out)) = [lit "white"; lit "black"]
  /\ Forall well_formed_bullet (bullets (coach out))
  /\ (List.length (bullets (coach out)) <= 3)%nat.
Proof.
  cbn zeta. unfold parse_agent_report.
  cbn [coach mental position observed_signals why threats plans bullets].
  assert (B : forall (c : bool) (o : option str),
             Forall well_formed_bullet
               (if c then match o with Some g => _bullets g | None => [] end
                else [])).
  { intros c o. destruct c; [|constructor].
    destruct o; [apply _bullets_well_formed | constructor]. }
  repeat split.
  - destruct (nonempty _); [|constructor].
    destruct (split_once _ _) as [[? after]|]; [|constructor].
    apply _bullets_well_formed.
  - apply B.
  - apply B.
  - repeat constructor; cbn [snd]; apply B.
  - apply Forall_firstn_keep. destruct (nonempty _); [|constructor].
    destruct (re_search _ _) as [g|]; [|constructor].
    destruct (negb _); [apply _bullets_well_formed | apply _numbered_well_formed].
  - rewrite length_firstn. lia.
Qed.

End ParserFacts.

Lemma drop_prefix_self (h rest : str) : drop_prefix h (h ++ rest) = Some rest.
Proof.
  induction h as [|a h IH]; [reflexivity|]. cbn. now rewrite N.eqb_refl.
Qed.

Lemma drop_prefix_None_app (h s tail : str) :
  drop_prefix h s = None -> (List.length h <= List.length s)%nat ->
  drop_prefix h (s ++ tail) = None.
Proof.
  revert s. induction h as [|a h IH]; intros s E Hl; [discriminate E|].
  destruct s as [|c s]; [cbn in Hl; lia|]. cbn in *.
  destruct (N.eqb a c); [|reflexivity]. apply IH; [exact E | lia].
Qed.

Lemma split_once_first (h prefix : str) :
  split_once h (prefix ++ h) = Some (prefix, []) ->
  forall b1 b2 tail, prefix = b1 ++ b2 -> b2 <> [] ->
    drop_prefix h (b2 ++ h ++ tail) = None.
Proof.
  induction prefix as [|c p IH]; intros H b1 b2 tail E Hne.
  - destruct b1, b2; try discriminate E. now contradiction Hne.
  - cbn [app] in H. cbn [split_once] in H.
    destruct (drop_prefix h (c :: p ++ h)) as [r|] eqn:D.
    + injection H as H _. discriminate H.
    + destruct (split_once h (p ++ h)) as [[a b]|] eqn:S; [|discriminate H].
      injection H as -> ->.
      destruct b1 as [|c1 b1].
      * cbn in E. subst b2. cbn [app].
        change (c :: p ++ h ++ tail) with ((c :: p) ++ h ++ tail).
        rewrite app_assoc. apply drop_prefix_None_app; [exact D|].
        cbn [app List.length]. rewrite length_app. lia.
      * injection E as -> ->. now apply (IH eq_refl b1).
Qed.

Lemma has_header_line_suffix (b1 b2 : str) :
  has_header_line (b1 ++ b2) = false -> has_header_line b2 = false.
Proof.
  induction b1 as [|c b1 IH]; [trivial|].
  cbn [app]. intros H. apply IH.
  destruct (b1 ++ b2) as [|d t] eqn:E; [reflexivity|].
  cbn [has_header_line] in H. now apply orb_false_iff in H as [_ H].
Qed.

Section SectionFacts.
Context {U : Unicode}.

Lemma star_greedy_all (A : Type) (p : char -> bool)
    (k : str -> str -> option A) (ws : str) :
  forall pre rest r,
    forallb p ws = true ->
    match rest with c :: _ => p c = false | [] => True end ->
    k (rev ws ++ pre) rest = Some r ->
    star_greedy p k pre (ws ++ rest) = Some r.
Proof.
  induction ws as [|c ws IH]; intros pre rest r Hw Hr Hk.
  - cbn [app rev] in *. destruct rest as [|d t]; cbn [star_greedy]; [exact Hk|].
    now rewrite Hr.
  - cbn [forallb] in Hw. apply andb_true_iff in Hw as [Hc Hw].
    cbn [app star_greedy]. rewrite Hc.
    rewrite (IH (c :: pre) rest r Hw Hr); [reflexivity|].
    cbn [rev] in Hk. now rewrite <- app_assoc in Hk.
Qed.

Lemma star_lazy_first (A : Type) (k : str -> str -> option A) (body : str) :
  forall pre rest r,
    (forall b1 b2 pre', body = b1 ++ b2 -> b2 <> [] ->
                        k pre' (b2 ++ rest) = None) ->
    k (rev body ++ pre) rest = Some r ->
    star_lazy any_char k pre (body ++ rest) = Some r.
Proof.
  induction body as [|c body IH]; intros pre rest r H Hk.
  - cbn [app rev] in *. destruct rest; cbn [star_lazy]; now rewrite Hk.
  - cbn [app star_lazy].
    pose proof (H [] (c :: body) pre eq_refl ltac:(discriminate)) as H0.
    cbn [app] in H0. rewrite H0.
    cbn [any_char]. apply IH.
    + intros b1 b2 pre' E Hne. apply (H (c :: b1) b2 pre'); [|exact Hne].
      cbn. now rewrite E.
    + cbn [rev] in Hk. now rewrite <- app_assoc in Hk.
Qed.

Lemma next_header_fails (A : Type) (k : str -> str -> option A)
    (pre b2 rest : str) :
  b2 <> [] -> has_header_line b2 = false ->
  match rest with c :: _ => N.eqb c 91 = false | [] => True end ->
  rmatch (Ahead next_header) pre (b2 ++ rest) k = None.
Proof.
  intros Hne Hh Hr.
  destruct b2 as [|c b2]; [now contradiction Hne|].
  cbn [app rmatch next_header].
  assert (E : drop_prefix (lit "\n[") (c :: b2 ++ rest) = None).
  { change (lit "\n[") with [10%N; 91%N]. cbn [drop_prefix].
    destruct (N.eqb 10 c) eqn:Ec; [|reflexivity].
    apply N.eqb_eq in Ec. subst c.
    destruct b2 as [|d b2].
    - cbn [app]. destruct rest as [|e rest]; [reflexivity|].
      rewrite N.eqb_sym. now rewrite Hr.
    - cbn [app]. cbn [has_header_line] in Hh.
      apply orb_false_iff in Hh as [Hh _].
      rewrite N.eqb_refl in Hh. cbn [andb] in Hh.
      rewrite N.eqb_sym. now rewrite Hh. }
  rewrite E. reflexivity.
Qed.


Lemma next_header_holds (A : Type) (k : str -> str -> option A)
    (pre rest : str) :
  section_end rest -> rmatch (Ahead next_header) pre rest k = k pre rest.
Proof.
  intros [->|(next & tail & -> & Hne & Hu)]; [reflexivity|].
  cbn [rmatch next_header plus]. rewrite drop_prefix_self.
  destruct next as [|c next]; [now contradiction Hne|].
  cbn [forallb] in Hu. apply andb_true_iff in Hu as [Hc Hu].
  cbn [app]. rewrite Hc.
  rewrite (star_greedy_all _ _ _ next _ (lit "]" ++ tail) tt Hu);
    [reflexivity | reflexivity |].
  cbn [rmatch]. now rewrite drop_prefix_self.
Qed.

Lemma section_end_head (rest : str) :
  section_end rest ->
  match rest with c :: _ => N.eqb c 91 = false | [] => True end.
Proof. intros [->|(next & tail & -> & _)]; [exact I | reflexivity]. Qed.

Lemma match_section_here (tag pre ws body rest : str) :
  forallb is_space ws = true ->
  starts_with_text body ->
  has_header_line body = false ->
  section_end rest ->
  match_here (section_re tag) pre
             ((lit "[" ++ tag ++ lit "]") ++ ws ++ body ++ rest)
  = Some body.
Proof.
  intros Hw Hb Hh Hr. unfold match_here, section_re.
  cbn [p_head p_group p_tail].
  match goal with
  | |- rmatch (Seq (Lit ?h) (Star is_space)) ?p ?t ?k = _ =>
      change (rmatch (Seq (Lit h) (Star is_space)) p t k)
        with (match drop_prefix h t with
              | Some rest' => star_greedy is_space k (rev h ++ p) rest'
              | None => None
              end)
  end.
  rewrite drop_prefix_self.
  apply star_greedy_all; [exact Hw | |].
  { destruct body as [|c body]; [destruct Hb | exact Hb]. }
  cbv beta.
  match goal with
  | |- rmatch (StarLazy any_char) ?p ?t ?k = _ =>
      change (rmatch (StarLazy any_char) p t k) with (star_lazy any_char k p t)
  end.
  apply star_lazy_first.
  - intros b1 b2 pre' E Hne. cbv beta.
    change (Ahead _) with (Ahead next_header).
    apply next_header_fails; [exact Hne | | now apply section_end_head].
    apply (has_header_line_suffix b1). now rewrite <- E.
  - cbv beta. change (Ahead _) with (Ahead next_header).
    rewrite next_header_holds by exact Hr.
    rewrite length_app, Nat.add_sub, firstn_app, Nat.sub_diag, firstn_all.
    cbn [firstn]. now rewrite app_nil_r.
Qed.

Lemma search_from_here (pat : pattern) (pre rest g : str) :
  match_here pat pre rest = Some g -> search_from pat pre rest = Some g.
Proof. intros H. destruct rest; cbn [search_from]; now rewrite H. Qed.

Lemma search_skips_prefix (pat : pattern) (h : str) (x : regex) (prefix : str) :
  p_head pat = Seq (Lit h) x ->
  split_once h (prefix ++ h) = Some (prefix, []) ->
  forall pre tail,
    search_from pat pre (prefix ++ h ++ tail)
    = search_from pat (rev prefix ++ pre) (h ++ tail).
Proof.
  intros Hp. induction prefix as [|c p IH]; intros H pre tail; [reflexivity|].
  cbn [app search_from].
  assert (M : match_here pat pre (c :: p ++ h ++ tail) = None).
  { unfold match_here. rewrite Hp. cbn [rmatch].
    pose proof (split_once_first h (c :: p) H [] (c :: p) tail eq_refl
                  ltac:(discriminate)) as D.
    cbn [app] in D. now rewrite D. }
  rewrite M.
  assert (H' : split_once h (p ++ h) = Some (p, [])).
  { cbn [app split_once] in H.
    destruct (drop_prefix h (c :: p ++ h)); [injection H as H _; discriminate H|].
    destruct (split_once h (p ++ h)) as [[a b]|]; [|discriminate H].
    now injection H as -> ->. }
  rewrite (IH H' (c :: pre) tail). cbn [rev]. now rewrite <- app_assoc.
Qed.

Lemma search_without_header (pat : pattern) (h : str) (x : regex) (text : str) :
  p_head pat = Seq (Lit h) x ->
  split_once h text = None ->
  forall pre, search_from pat pre text = None.
Proof.
  intros Hp. induction text as [|c t IH]; intros H pre.
  - cbn [search_from]. unfold match_here. rewrite Hp. cbn [rmatch].
    cbn [split_once] in H. destruct (drop_prefix h []); [discriminate H|].
    reflexivity.
  - cbn [search_from]. unfold match_here. rewrite Hp. cbn [rmatch].
    cbn [split_once] in H.
    destruct (drop_prefix h (c :: t)); [discriminate H|].
    apply IH. destruct (split_once h t) as [[a b]|]; [discriminate H | reflexivity].
Qed.

(** The search of [_section] in a text of the shape prefix, header, white
    space, body, rest; shared by the facts about sections and labels. *)
Lemma section_content (prefix tag ws body rest : str) :
  let header := lit "[" ++ tag ++ lit "]" in
  split_once header (prefix ++ header) = Some (prefix, []) ->
  forallb is_space ws = true ->
  starts_with_text body ->
  has_header_line body = false ->
  section_end rest ->
  _section (prefix ++ header ++ ws ++ body ++ rest) tag = strip body.
Proof.
  cbn zeta. intros Hp Hw Hb Hh Hr. unfold _section, re_search.
  rewrite (search_skips_prefix (section_re tag) _ (Star is_space) prefix
             eq_refl Hp).
  rewrite search_from_here with (g := body); [reflexivity|].
  now apply match_section_here.
Qed.

(** X21: [_section] returns the text between its header and the next
    header line, stripped: the header occurs first after [prefix], white
    space follows, the body starts with text and holds no line feed
    followed by a bracket, and the text ends there or goes on with a
    line that opens the next header. *)
Theorem section_between_headers (prefix tag ws body rest : str) :
  let header := lit "[" ++ tag ++ lit "]" in
  split_once header (prefix ++ header) = Some (prefix, []) ->
  forallb is_space ws = true ->
  starts_with_text body ->
  has_header_line body = false ->
  section_end rest ->
  _section (prefix ++ header ++ ws ++ body ++ rest) tag = strip body.
Proof.
  cbn zeta. intros Hp Hw Hb Hh Hr. unfold _section, re_search.
  rewrite (search_skips_prefix (section_re tag) _ (Star is_space) prefix
             eq_refl Hp).
  rewrite search_from_here with (g := body); [reflexivity|].
  now apply match_section_here.
Qed.

(** X22: a report without the header of a section gets the defaults of
    that section, whatever else it holds: the neutral inference and tip,
    the unknown evaluation with empty lists, the label Good, no coaching
    bullets and no line; the text is kept. *)
Theorem missing_sections_degrade (text : str) :
  let out := parse_agent_report text in
  (split_once (lit "[MENTAL_STATE_CHECK]") text = None ->
   observed_signals (mental out) = []
   /\ inference (mental out) = lit "Uncertain; monitor focus and time usage."
   /\ micro_reset_tip (mental out)
      = lit "Take one deep breath, relax shoulders, and pick one plan for the next move.")
  /\ (split_once (lit "[POSITION_SNAPSHOT]") text = None ->
      position out
      = mkPositionOutput (lit "unknown") [] []
                         [(lit "white", []); (lit "black", [])])
  /\ (split_once (lit "[MOVE_QUALITY]") text = None ->
      move_quality (coach out) = Label.Good)
  /\ (split_once (lit "[COACHING]") text = None ->
      bullets (coach out) = [] /\ pv (coach out) = None)
  /\ raw_text out = Some (PyStr text).
Proof.
  assert (S : forall tag, split_once (lit "[" ++ tag ++ lit "]") text = None ->
                          _section text tag = []).
  { intros tag H. unfold _section, re_search.
    now rewrite (search_without_header (section_re tag) _ (Star is_space) text
                   eq_refl H). }
  cbn zeta. unfold parse_agent_report.
  cbn [coach mental position observed_signals inference micro_reset_tip
       move_quality bullets pv raw_text].
  split; [intros H; rewrite (S (lit "MENTAL_STATE_CHECK") H); repeat split|].
  split; [intros H; now rewrite (S (lit "POSITION_SNAPSHOT") H)|].
  split; [intros H; now rewrite (S (lit "MOVE_QUALITY") H)|].
  split; [intros H; rewrite (S (lit "COACHING") H); split; reflexivity|].
  reflexivity.
Qed.

End SectionFacts.

Section LabelFacts.
Context {U : Unicode}.

Lemma match_label_here (pre ws line more : str) :
  forallb is_space ws = true ->
  starts_with_text line ->
  forallb not_newline line = true ->
  match more with c :: _ => c = 10%N | [] => True end ->
  match_here label_re pre (lit "Label:" ++ ws ++ line ++ more) = Some line.
Proof.
  intros Hw Hl Hn Hm. unfold match_here, label_re.
  cbn [p_head p_group p_tail].
  match goal with
  | |- rmatch (Seq (Lit ?h) (Star is_space)) ?p ?t ?k = _ =>
      change (rmatch (Seq (Lit h) (Star is_space)) p t k)
        with (match drop_prefix h t with
              | Some rest' => star_greedy is_space k (rev h ++ p) rest'
              | None => None
              end)
  end.
  rewrite drop_prefix_self.
  apply star_greedy_all; [exact Hw | |].
  { destruct line as [|c line]; [destruct Hl | exact Hl]. }
  cbv beta.
  match goal with
  | |- rmatch (Star not_newline) ?p ?t ?k = _ =>
      change (rmatch (Star not_newline) p t k) with (star_greedy not_newline k p t)
  end.
  apply star_greedy_all; [exact Hn | |].
  { destruct more as [|c more]; [exact I|]. now subst c. }
  cbv beta. unfold nothing. cbn [rmatch drop_prefix].
  rewrite length_app, Nat.add_sub, firstn_app, Nat.sub_diag, firstn_all.
  cbn [firstn]. now rewrite app_nil_r.
Qed.

(** X23: the label of the report is read off the Label line of the
    move-quality section: with the section shaped as in [section_content]
    and its stripped body starting with "Label:", white space and a line,
    the extracted token is that line cleaned, and it is the label when it
    is one of the five names. *)
Theorem written_label_is_parsed
    (prefix ws body rest ws2 line more : str) :
  let header := lit "[MOVE_QUALITY]" in
  let text := prefix ++ header ++ ws ++ body ++ rest in
  split_once header (prefix ++ header) = Some (prefix, []) ->
  forallb is_space ws = true ->
  starts_with_text body ->
  has_header_line body = false ->
  section_end rest ->
  strip body = lit "Label:" ++ ws2 ++ line ++ more ->
  forallb is_space ws2 = true ->
  starts_with_text line ->
  forallb not_newline line = true ->
  match more with c :: _ => c = 10%N | [] => True end ->
  extracted_label text = Some (clean line)
  /\ move_quality (coach (parse_agent_report text))
     = if str_mem (clean line) allowed then clean line else Label.Good.
Proof.
  cbn zeta. intros Hp Hw Hb Hh Hr Hs Hw2 Hl Hn Hm.
  assert (S : _section (prefix ++ lit "[MOVE_QUALITY]" ++ ws ++ body ++ rest)
                       (lit "MOVE_QUALITY")
              = lit "Label:" ++ ws2 ++ line ++ more).
  { rewrite <- Hs.
    apply (section_content prefix (lit "MOVE_QUALITY") ws body rest);
      assumption. }
  assert (R : re_search label_re (lit "Label:" ++ ws2 ++ line ++ more)
              = Some line).
  { unfold re_search. apply search_from_here.
    now apply match_label_here. }
  unfold extracted_label, parse_agent_report. cbn [coach move_quality].
  rewrite S, R.
  assert (N : nonempty (lit "Label:" ++ ws2 ++ line ++ more) = true)
    by reflexivity.
  rewrite N. cbn [option_map]. split; [reflexivity|].
  now destruct (str_mem (clean line) allowed).
Qed.

End LabelFacts.

Section EdgeFacts.
Context {U : Unicode}.

(** X24: a section left empty is not read as empty: the white space after
    its header runs up to the next header, and the section returned is
    the next section with its header. *)
Theorem empty_section_takes_next (prefix tag ws next body rest : str) :
  let header := lit "[" ++ tag ++ lit "]" in
  split_once header (prefix ++ header) = Some (prefix, []) ->
  forallb is_space ws = true ->
  has_header_line (lit "[" ++ next ++ lit "]" ++ body) = false ->
  section_end rest ->
  _section (prefix ++ header ++ ws ++ (lit "[" ++ next ++ lit "]" ++ body) ++ rest)
           tag
  = strip (lit "[" ++ next ++ lit "]" ++ body).
Proof.
  cbn zeta. intros Hp Hw Hh Hr.
  apply (section_content prefix tag ws
           (lit "[" ++ next ++ lit "]" ++ body) rest);
    try assumption.
  reflexivity.
Qed.

End EdgeFacts.

(** ** The scripted game: further witnesses *)

Section ScriptedMore.
#[local] Existing Instance ascii_only.
#[local] Existing Instance scripted_rules.


(** X9, witness: e2e4 on a fresh session. *)
Lemma accepted_move_appends_plies_witness :
  accepted env_no_key (move_request "e2e4" None None) initial_session = true
  /\ move_list (snd (make_move env_no_key (move_request "e2e4" None None)
                       initial_session))
     = [lit "e2e4"; lit "e7e5"]
  /\ exists engine move,
       ENGINE env_no_key = Some engine
       /\ parse_uci (current (board initial_session))
                    (strip (MoveRequest.uci_move (move_request "e2e4" None None)))
          = Some move.
Proof.
  split; [reflexivity|]. split; [reflexivity|].
  destruct (accepted_move_appends_plies env_no_key
              (move_request "e2e4" None None) initial_session eq_refl)
    as (engine & move & En & P & _).
  exists engine, move. split; assumption.
Defined.

(** X10, witness: the same move, answered with the canned report. *)
Lemma accepted_move_without_key_witness :
  accepted env_no_key (move_request "e2e4" None None) initial_session = true
  /\ api_key env_no_key = None
  /\ exists resp,
       fst (make_move env_no_key (move_request "e2e4" None None)
              initial_session) = Ok resp
       /\ move_agent_output resp
          = Some (parse_agent_report missing_key_report).
Proof.
  split; [reflexivity|]. split; [reflexivity|].
  destruct (accepted_move_without_key_gets_canned_report env_no_key
              (move_request "e2e4" None None) initial_session eq_refl
              (or_introl eq_refl))
    as (resp & E & O & _).
  exists resp. split; assumption.
Defined.

(** X11, witness: the state after e2e4 on a fresh session. *)
Lemma get_state_repeats_last_reply_witness :
  exists resp,
    fst (make_move env_no_key (move_request "e2e4" None None) initial_session)
    = Ok resp
    /\ get_state (snd (make_move env_no_key (move_request "e2e4" None None)
                         initial_session))
       = (Ok (mkStateResponse (move_state resp) (move_agent_output resp)),
          snd (make_move env_no_key (move_request "e2e4" None None)
                 initial_session)).
Proof.
  eexists. split; [reflexivity|].
  apply (proj1 get_state_repeats_last_reply env_no_key
           (move_request "e2e4" None None) initial_session).
  reflexivity.
Defined.

(** X12, witness: verbosity 1. *)
Lemma validated_request_passes_verbosity_check_witness :
  verbosity_in_range white_game = true
  /\ valid_new_game white_game
     = str_mem (lower (NewGameRequest.side white_game))
               [lit "white"; lit "black"]
       && str_mem (lower (NewGameRequest.bot_difficulty white_game))
                  [lit "easy"; lit "medium"; lit "hard"].
Proof.
  split; [reflexivity|].
  exact (proj2 (validated_request_passes_verbosity_check env_no_key white_game
                  initial_session eq_refl)).
Defined.

(** X13, witness: a new game as black, opened by the engine. *)
Lemma new_game_reply_is_fresh_witness :
  exists resp,
    fst (new_game env_no_key black_game after_first_turn) = Ok resp
    /\ agent_output resp = None
    /\ GameState.move_list (state resp) = [lit "e2e4"].
Proof.
  eexists. split; [reflexivity|].
  split; [|reflexivity].
  exact (proj1 (new_game_reply_is_fresh env_no_key black_game after_first_turn
                  _ eq_refl)).
Defined.

(** X16, witness: mate in 3 before the move. *)
Lemma mate_score_is_labelled_good_witness :
  score mate_entry = Mate 3
  /\ classify_last_move (eval_cp (parse_info mate_entry))
                        (eval_cp (parse_info cp_entry))
     = Label.Good.
Proof.
  split; [reflexivity|].
  exact (mate_score_is_labelled_good mate_entry cp_entry 3
           (or_introl eq_refl)).
Defined.

End ScriptedMore.

(** X14, witness: a swing of -250 against a swing of -40. *)
Lemma classify_worse_swing_worse_label_witness :
  (-150 - 100 <= 10 - 50)%Z
  /\ (classify_last_move (Some 50%Z) (Some 10%Z) = Label.Inaccuracy ->
      In (classify_last_move (Some 100%Z) (Some (-150)%Z))
         [Label.Inaccuracy; Label.Mistake; Label.Blunder]).
Proof.
  split; [lia|].
  exact (proj1 (proj2 (proj2
           (classify_worse_swing_worse_label 100 (-150) 50 10
              ltac:(lia))))).
Defined.

(** X18, witness: no configured path, the homebrew binary installed. *)
Lemma find_stockfish_binary_priority_witness :
  find_stockfish_binary (F := homebrew_only) None
  = Binary (lit "/opt/homebrew/bin/stockfish")
  /\ exists src,
       lit "/opt/homebrew/bin/stockfish" = path_str (FileSystem := homebrew_only) src
       /\ path_exists (FileSystem := homebrew_only) src = true
       /\ (None = Some src \/ In src common_paths).
Proof.
  split; [vm_compute; reflexivity|].
  apply (proj1 (find_stockfish_binary_priority (F := homebrew_only) None)).
  vm_compute; reflexivity.
Defined.

(** X22, witness: a text with no header at all. *)
Lemma missing_sections_degrade_witness :
  split_once (lit "[MOVE_QUALITY]") (lit "no report") = None
  /\ move_quality (coach (parse_agent_report (U := ascii_only) (lit "no report")))
     = Label.Good.
Proof.
  split; [vm_compute; reflexivity|].
  apply (proj1 (proj2 (proj2
           (missing_sections_degrade (U := ascii_only) (lit "no report"))))).
  vm_compute; reflexivity.
Defined.

(** X21, witness: the move-quality section of the fragment. *)
Lemma section_between_headers_witness :
  split_once (lit "[" ++ lit "MOVE_QUALITY" ++ lit "]")
             (fragment_prefix ++ lit "[" ++ lit "MOVE_QUALITY" ++ lit "]")
  = Some (fragment_prefix, [])
  /\ has_header_line fragment_body = false
  /\ _section (U := ascii_only)
       (fragment_prefix ++ (lit "[" ++ lit "MOVE_QUALITY" ++ lit "]")
        ++ lit "\n" ++ fragment_body ++ fragment_rest)
       (lit "MOVE_QUALITY")
     = strip fragment_body.
Proof.
  split; [vm_compute; reflexivity|]. split; [vm_compute; reflexivity|].
  apply (section_between_headers (U := ascii_only)
           fragment_prefix (lit "MOVE_QUALITY") (lit "\n")
           fragment_body fragment_rest).
  - vm_compute; reflexivity.
  - vm_compute; reflexivity.
  - vm_compute; reflexivity.
  - vm_compute; reflexivity.
  - right. exists (lit "COACHING"), (lit "\nActionable:\n- 1) castle\n").
    split; [vm_compute; reflexivity|]. split; [discriminate | reflexivity].
Defined.

(** X23, witness: the label Mistake of the fragment. *)
Lemma written_label_is_parsed_witness :
  strip fragment_body
  = lit "Label:" ++ lit "\n" ++ lit "- Mistake" ++ lit "\nReason:\n- drops a pawn"
  /\ clean (lit "- Mistake") = Label.Mistake
  /\ extracted_label (U := ascii_only)
       (fragment_prefix ++ lit "[MOVE_QUALITY]" ++ lit "\n" ++ fragment_body
        ++ fragment_rest)
     = Some (clean (lit "- Mistake")).
Proof.
  split; [vm_compute; reflexivity|]. split; [vm_compute; reflexivity|].
  apply (written_label_is_parsed (U := ascii_only)
           fragment_prefix (lit "\n") fragment_body fragment_rest
           (lit "\n") (lit "- Mistake") (lit "\nReason:\n- drops a pawn")).
  - vm_compute; reflexivity.
  - vm_compute; reflexivity.
  - vm_compute; reflexivity.
  - vm_compute; reflexivity.
  - right. exists (lit "COACHING"), (lit "\nActionable:\n- 1) castle\n").
    split; [vm_compute; reflexivity|]. split; [discriminate | reflexivity].
  - vm_compute; reflexivity.
  - vm_compute; reflexivity.
  - vm_compute; reflexivity.
  - vm_compute; reflexivity.
  - vm_compute; reflexivity.
Defined.

(** X24, witness: an empty mental section followed by the position
    section. *)
Lemma empty_section_takes_next_witness :
  forallb is_space (lit "\n") = true
  /\ _section (U := ascii_only)
       (empty_mental_prefix
        ++ (lit "[" ++ lit "MENTAL_STATE_CHECK" ++ lit "]")
        ++ lit "\n"
        ++ (lit "[" ++ lit "POSITION_SNAPSHOT" ++ lit "]" ++ empty_mental_body)
        ++ empty_mental_rest)
       (lit "MENTAL_STATE_CHECK")
     = strip (lit "[" ++ lit "POSITION_SNAPSHOT" ++ lit "]" ++ empty_mental_body).
Proof.
  split; [reflexivity|].
  apply (empty_section_takes_next (U := ascii_only)
           empty_mental_prefix (lit "MENTAL_STATE_CHECK") (lit "\n")
           (lit "POSITION_SNAPSHOT") empty_mental_body empty_mental_rest).
  - vm_compute; reflexivity.
  - vm_compute; reflexivity.
  - vm_compute; reflexivity.
  - right. exists (lit "MOVE_QUALITY"), (lit "\nLabel:\n- Good\n").
    split; [vm_compute; reflexivity|]. split; [discriminate | reflexivity].
Defined.
